(** * rsyncparse: a shallow embedding of [rsyncparse.go] and its properties

    The Go package has one exported type, [Stats], one method, [Speedup],
    two compiled patterns and one function, [Parse].  The embedding keeps
    that shape: Go strings are [string] (sequences of bytes), [int64] is [Z]
    with the wrap-around written out, [float64] is binary64 as [spec_float],
    a Go [(value, error)] return is a pair whose error is an [option], and a
    run-time panic is an outcome of its own.  The parts of the Go standard
    library that [Parse] calls ([strings], [strconv], [regexp], [bufio]) are
    embedded from their documented behaviour, each in a module of its
    package's name. *)

From Stdlib Require Import ZArith NArith List String Ascii Bool Lia.
From Stdlib Require Import Floats.SpecFloat.
Import ListNotations.

Local Open Scope string_scope.
Local Open Scope Z_scope.

(** ** Errors and panics *)

(** The [Err] field of a [*strconv.NumError]. *)
Inductive num_err : Type :=
| ErrSyntax
| ErrRange
| ErrInvalidBase (base : Z)
| ErrInvalidBitSize (bitSize : Z).

(** The Go [error] values that can flow through [Parse]. *)
Inductive error : Type :=
| EOF                                             (* io.EOF *)
| ErrTooLong                                      (* bufio.ErrTooLong *)
| ErrorString (msg : string)                      (* fmt.Errorf, errors.New *)
| NumError (Func Num : string) (Err : num_err).   (* *strconv.NumError *)

(** Run-time panics of the Go runtime. *)
Inductive panic : Type :=
| IndexOutOfRange (index len : Z)
| IntegerDivideByZero.

(** A call either returns or panics. *)
Inductive outcome (A : Type) : Type :=
| Returned (a : A)
| Panicked (p : panic).
Arguments Returned {A} a.
Arguments Panicked {A} p.

Definition bind {A B : Type} (m : outcome A) (k : A -> outcome B) : outcome B :=
  match m with
  | Returned a => k a
  | Panicked p => Panicked p
  end.

Notation "x <- m ;; k" := (bind m (fun x => k))
  (at level 61, m at next level, right associativity).

(** [xs[i]] on a slice: panics when [i] is out of range. *)
Definition index {A : Type} (xs : list A) (i : nat) : outcome A :=
  match nth_error xs i with
  | Some x => Returned x
  | None => Panicked (IndexOutOfRange (Z.of_nat i) (Z.of_nat (List.length xs)))
  end.

(** ** Bytes *)

Definition byte_val (c : ascii) : Z := Z.of_N (N_of_ascii c).

Definition is_digit (c : ascii) : bool :=
  (byte_val "0" <=? byte_val c) && (byte_val c <=? byte_val "9").

(** ** Package strings *)

Module strings.

(** [strings.HasPrefix(s, prefix)]. *)
Definition HasPrefix (s pre : string) : bool := String.prefix pre s.

(** [strings.ReplaceAll(s, old, new)] at a one-byte [old], the only way
    [Parse] calls it: every occurrence of the byte is replaced. *)
Fixpoint ReplaceAll (s : string) (old : ascii) (new : string) : string :=
  match s with
  | EmptyString => EmptyString
  | String c s' =>
      if Ascii.eqb c old then new ++ ReplaceAll s' old new
      else String c (ReplaceAll s' old new)
  end.

End strings.

(** ** int64 *)

Module int64.

Definition min_int : Z := - 2 ^ 63.
Definition max_int : Z := 2 ^ 63 - 1.

Definition in_range (x : Z) : Prop := min_int <= x <= max_int.

(** Two's-complement wrap-around into the int64 range. *)
Definition wrap (x : Z) : Z := (x + 2 ^ 63) mod 2 ^ 64 - 2 ^ 63.

Definition add (x y : Z) : Z := wrap (x + y).

(** [x / y] on int64: truncated towards zero, a run-time panic when
    [y] is zero, and [min_int / -1] wraps to [min_int]. *)
Definition div (x y : Z) : outcome Z :=
  if y =? 0 then Panicked IntegerDivideByZero
  else Returned (wrap (Z.quot x y)).

End int64.

(** ** float64 *)

Module float64.

Definition prec : Z := 53.
Definition emax : Z := 1024.

(** A binary64 value. *)
Definition t : Type := spec_float.

Definition zero : t := S754_zero false.

(** The conversion [float64(x)] of an integer: round to nearest, ties
    to even. *)
Definition of_int (x : Z) : t := binary_normalize prec emax x 0 false.

(** The float64 quotient [x / y]. *)
Definition div (x y : t) : t := SFdiv prec emax x y.

(** The binary64 value nearest to [m / 10 ^ k], ties to even, for
    [m >= 0]; an infinity when that value is beyond the largest finite
    float64.  The division is on the exact integers [m] and [10 ^ k]:
    only the quotient is rounded. *)
Definition of_decimal (m : Z) (k : nat) : t :=
  match m with
  | Zpos p =>
      SFdiv prec emax (S754_finite false p 0)
                      (S754_finite false (Z.to_pos (10 ^ Z.of_nat k)) 0)
  | _ => zero
  end.

End float64.

(** ** Package strconv *)

Module strconv.

(** [lower(c)]: the lower-case version of an ASCII letter, [c | ('x' - 'X')]. *)
Definition lower (c : ascii) : Z := Z.lor (byte_val c) 32.

Definition maxUint64 : Z := 2 ^ 64 - 1.

Definition syntaxError (fn str : string) : error := NumError fn str ErrSyntax.
Definition rangeError (fn str : string) : error := NumError fn str ErrRange.
Definition baseError (fn str : string) (base : Z) : error :=
  NumError fn str (ErrInvalidBase base).
Definition bitSizeError (fn str : string) (bitSize : Z) : error :=
  NumError fn str (ErrInvalidBitSize bitSize).

(** The state [saw] of [underscoreOK]: the last character seen. *)
Inductive saw_t : Type :=
| SawStart        (* '^' *)
| SawDigit        (* '0' *)
| SawUnderscore   (* '_' *)
| SawOther.       (* '!' *)

Definition saw_eqb (a b : saw_t) : bool :=
  match a, b with
  | SawStart, SawStart | SawDigit, SawDigit
  | SawUnderscore, SawUnderscore | SawOther, SawOther => true
  | _, _ => false
  end.

(** The loop "number proper" of [underscoreOK]. *)
Fixpoint underscoreOK_loop (hex : bool) (saw : saw_t) (s : string) : bool :=
  match s with
  | EmptyString => negb (saw_eqb saw SawUnderscore)
  | String c s' =>
      if is_digit c
         || (hex && (byte_val "a" <=? lower c) && (lower c <=? byte_val "f"))
      then underscoreOK_loop hex SawDigit s'
      else if Ascii.eqb c "_" then
        if negb (saw_eqb saw SawDigit) then false
        else underscoreOK_loop hex SawUnderscore s'
      else if saw_eqb saw SawUnderscore then false
      else underscoreOK_loop hex SawOther s'
  end.

(** [underscoreOK(s)]: underscores only between digits, or between a base
    prefix and a digit. *)
Definition underscoreOK (s : string) : bool :=
  let s :=
    match s with
    | String c s' => if Ascii.eqb c "-" || Ascii.eqb c "+" then s' else s
    | EmptyString => s
    end in
  match s with
  | String c0 (String c1 s2) =>
      if Ascii.eqb c0 "0"
         && ((lower c1 =? byte_val "b") || (lower c1 =? byte_val "o")
             || (lower c1 =? byte_val "x"))
      then underscoreOK_loop (lower c1 =? byte_val "x") SawDigit s2
      else underscoreOK_loop false SawStart s
  | _ => underscoreOK_loop false SawStart s
  end.

(** The digit loop of [ParseUint]: [n] is the value so far and
    [underscores] whether an underscore was skipped. *)
Fixpoint ParseUint_loop (s0 : string) (base0 : bool) (base cutoff maxVal : Z)
         (n : Z) (underscores : bool) (s : string) : Z * option error :=
  match s with
  | EmptyString =>
      if underscores && negb (underscoreOK s0)
      then (0, Some (syntaxError "ParseUint" s0))
      else (n, None)
  | String c s' =>
      if Ascii.eqb c "_" && base0 then
        ParseUint_loop s0 base0 base cutoff maxVal n true s'
      else
        let d :=
          if is_digit c then Some (byte_val c - byte_val "0")
          else if (byte_val "a" <=? lower c) && (lower c <=? byte_val "z")
               then Some (lower c - byte_val "a" + 10)
               else None in
        match d with
        | None => (0, Some (syntaxError "ParseUint" s0))
        | Some d =>
            if d >=? base then (0, Some (syntaxError "ParseUint" s0))
            else if n >=? cutoff then (maxVal, Some (rangeError "ParseUint" s0))
            else
              let n' := (n * base) mod 2 ^ 64 in
              let n1 := (n' + d) mod 2 ^ 64 in
              if (n1 <? n') || (n1 >? maxVal)
              then (maxVal, Some (rangeError "ParseUint" s0))
              else ParseUint_loop s0 base0 base cutoff maxVal n1 underscores s'
        end
  end.

(** [strconv.ParseUint(s, base, bitSize)]. *)
Definition ParseUint (s : string) (base bitSize : Z) : Z * option error :=
  match s with
  | EmptyString => (0, Some (syntaxError "ParseUint" s))
  | String c0 rest =>
      let base0 := base =? 0 in
      let s0 := s in
      (* the base, and the string without its base prefix *)
      let based : option (Z * string) :=
        if (2 <=? base) && (base <=? 36) then Some (base, s)
        else if base =? 0 then
          if Ascii.eqb c0 "0" then
            match rest with
            | String c1 (String c2 s3) =>
                if lower c1 =? byte_val "b" then Some (2, String c2 s3)
                else if lower c1 =? byte_val "o" then Some (8, String c2 s3)
                else if lower c1 =? byte_val "x" then Some (16, String c2 s3)
                else Some (8, rest)
            | _ => Some (8, rest)
            end
          else Some (10, s)
        else None in
      match based with
      | None => (0, Some (baseError "ParseUint" s0 base))
      | Some (base, s) =>
          let bitSize' := if bitSize =? 0 then 64 else bitSize in
          if (bitSize <? 0) || (bitSize >? 64)
          then (0, Some (bitSizeError "ParseUint" s0 bitSize))
          else
            let cutoff := maxUint64 / base + 1 in
            let maxVal := 2 ^ bitSize' - 1 in
            ParseUint_loop s0 base0 base cutoff maxVal 0 false s
      end
  end.

(** [strconv.ParseInt(s, base, bitSize)]. *)
Definition ParseInt (s : string) (base bitSize : Z) : Z * option error :=
  match s with
  | EmptyString => (0, Some (syntaxError "ParseInt" s))
  | String c0 rest =>
      let s0 := s in
      let '(neg, s) :=
        if Ascii.eqb c0 "+" then (false, rest)
        else if Ascii.eqb c0 "-" then (true, rest)
        else (false, s) in
      let '(un, err) := ParseUint s base bitSize in
      match err with
      | Some (NumError _ _ ErrSyntax) => (0, Some (NumError "ParseInt" s0 ErrSyntax))
      | Some (NumError _ _ (ErrInvalidBase b)) =>
          (0, Some (NumError "ParseInt" s0 (ErrInvalidBase b)))
      | Some (NumError _ _ (ErrInvalidBitSize b)) =>
          (0, Some (NumError "ParseInt" s0 (ErrInvalidBitSize b)))
      | _ =>
          let bitSize := if bitSize =? 0 then 64 else bitSize in
          let cutoff := 2 ^ (bitSize - 1) in
          if negb neg && (un >=? cutoff)
          then (cutoff - 1, Some (rangeError "ParseInt" s0))
          else if neg && (un >? cutoff)
          then (- cutoff, Some (rangeError "ParseInt" s0))
          else (int64.wrap (if neg then - un else un), None)
      end
  end.

(** The digits of a decimal mantissa: [m] is the integer made of all
    the digits read, [k] the number of them after the point. *)
Fixpoint readFloat_loop (sawdot sawdigits : bool) (m : Z) (k : nat)
         (s : string) : option (Z * nat) :=
  match s with
  | EmptyString => if sawdigits then Some (m, k) else None
  | String c s' =>
      if Ascii.eqb c "." then
        if sawdot then None else readFloat_loop true sawdigits m k s'
      else if is_digit c then
        readFloat_loop sawdot true (m * 10 + (byte_val c - byte_val "0"))
                       (if sawdot then S k else k) s'
      else None
  end.

(** [strconv.ParseFloat(s, 64)] on the strings [Parse] can pass to it,
    those made of the bytes [0-9] and [.] only (see
    [transfer_rate_bytes] below).  On these the Go function reads digits
    with at most one point, wants at least one digit and the whole string
    consumed, and returns the float64 nearest to the decimal value, or an
    infinity and a range error beyond the largest float64.  The other
    syntaxes of the Go function (sign, exponent, hexadecimal, underscores,
    inf and nan) need a byte outside this alphabet and are not embedded:
    such a byte is reported as a syntax error here. *)
Definition ParseFloat (s : string) : float64.t * option error :=
  match readFloat_loop false false 0 0 s with
  | None => (float64.zero, Some (syntaxError "ParseFloat" s))
  | Some (m, k) =>
      match float64.of_decimal m k with
      | S754_infinity sg =>
          (S754_infinity sg, Some (rangeError "ParseFloat" s))
      | f => (f, None)
      end
  end.

End strconv.

(** ** Package regexp *)

Module regexp.

(** A bracket expression such as [[0-9,.]]: a list of byte ranges, a
    single byte being the range from itself to itself. *)
Definition class : Type := list (ascii * ascii).

Definition class_mem (cls : class) (c : ascii) : bool :=
  existsb (fun r => (byte_val (fst r) <=? byte_val c)
                    && (byte_val c <=? byte_val (snd r))) cls.

(** The pieces the two patterns of the package are made of. *)
Inductive node : Type :=
| Literal (s : string)       (* a run of literal bytes *)
| CapturePlus (cls : class). (* a capturing group ([...]+) *)

(** A pattern [^ n1 n2 ... nk $], anchored at both ends of the text. *)
Definition Regexp : Type := list node.

(** Drop the literal [l] from the front of [s]. *)
Fixpoint strip_literal (l s : string) : option string :=
  match l, s with
  | EmptyString, _ => Some s
  | String a l', String b s' =>
      if Ascii.eqb a b then strip_literal l' s' else None
  | String _ _, EmptyString => None
  end.

(** [([cls]+)] followed by the continuation [k]: greedy, so a longer
    run is tried before a shorter one; [acc] is the run read so far.
    The result is the list of captures, this group's first. *)
Fixpoint match_plus (cls : class) (k : string -> option (list string))
         (acc : string) (s : string) : option (list string) :=
  match s with
  | EmptyString => None
  | String c s' =>
      if class_mem cls c then
        let acc' := acc ++ String c EmptyString in
        match match_plus cls k acc' s' with
        | Some caps => Some caps
        | None =>
            match k s' with
            | Some caps => Some (acc' :: caps)
            | None => None
            end
        end
      else None
  end.

(** Match the nodes against the whole of [s]; the captures on success. *)
Fixpoint match_nodes (re : Regexp) (s : string) : option (list string) :=
  match re with
  | [] => match s with EmptyString => Some [] | _ => None end
  | Literal l :: re' =>
      match strip_literal l s with
      | Some s' => match_nodes re' s'
      | None => None
      end
  | CapturePlus cls :: re' => match_plus cls (match_nodes re') EmptyString s
  end.

(** [re.FindStringSubmatch(s)]: the whole match followed by the text of
    each group, or nil (the empty slice) when [s] does not match. *)
Definition FindStringSubmatch (re : Regexp) (s : string) : list string :=
  match match_nodes re s with
  | Some caps => s :: caps
  | None => []
  end.

End regexp.

(** ** Package bufio *)

Module bufio.

(** The size the buffer of a [Scanner] grows to, and no further, when
    the caller gives it no buffer of its own; [Parse] gives none.  Scanning
    stops for good at the end of the stream, at the first read error, or at
    a token too large for the buffer. *)
Definition MaxScanTokenSize : Z := 64 * 1024.

(** An [io.Reader], seen from its consumer: the bytes it delivers, and
    the error that ends them, [EOF] at a clean end of stream.  The error
    comes from a read of its own, after the last byte. *)
Record Reader : Type := { r_data : string; r_err : error }.

(** [dropCR(data)]: drop one trailing carriage return. *)
Fixpoint dropCR (data : string) : string :=
  match data with
  | EmptyString => EmptyString
  | String c EmptyString => if Ascii.eqb c "013" then EmptyString else data
  | String c rest => String c (dropCR rest)
  end.

(** The text cut at every newline: the newline-terminated lines, then
    what follows the last newline (possibly empty). *)
Fixpoint segments (data : string) : list string :=
  match data with
  | EmptyString => [EmptyString]
  | String c rest =>
      if Ascii.eqb c "010" then EmptyString :: segments rest
      else match segments rest with
           | seg :: segs => String c seg :: segs
           | [] => [String c EmptyString]
           end
  end.

(** A line fits when the scanner's buffer, which grows to
    [MaxScanTokenSize] bytes and no further, can hold it together with one
    more byte: the newline that ends it or, for the text after the last
    newline, room for the read that reports the end of the stream. *)
Definition fits (seg : string) : bool :=
  Z.of_nat (String.length seg) <? MaxScanTokenSize.

(** The tokens [Scan] yields with the split function [ScanLines], and
    the error the scanner stops on.  A terminated line yields a token,
    even an empty one; the text after the last newline yields one when
    it is not empty; a line that does not fit stops the scan with
    [ErrTooLong]; otherwise the scan stops on the reader's error. *)
Fixpoint scan (r_err : error) (segs : list string) : list string * error :=
  match segs with
  | [] => ([], r_err)
  | [final] =>
      match final with
      | EmptyString => ([], r_err)
      | _ => if fits final then ([dropCR final], r_err) else ([], ErrTooLong)
      end
  | seg :: segs' =>
      if fits seg then
        let '(tokens, err) := scan r_err segs' in (dropCR seg :: tokens, err)
      else ([], ErrTooLong)
  end.

(** A [*bufio.Scanner] over lines: the tokens it has still to yield, and
    the error it stops on after them. *)
Record Scanner : Type := { tokens : list string; err : error }.

(** [bufio.NewScanner(r)]. *)
Definition NewScanner (r : Reader) : Scanner :=
  let '(tokens, err) := scan (r_err r) (segments (r_data r)) in
  {| tokens := tokens; err := err |}.

(** [s.Err()]: the first error that is not [io.EOF]. *)
Definition Err (s : Scanner) : option error :=
  match err s with
  | EOF => None
  | e => Some e
  end.

End bufio.

(** ** Package rsyncparse *)

(** [Stats] contains all data found in rsync output. *)
Record Stats : Type := {
  Found : bool;
  TotalWritten : Z;          (* int64 *)
  TotalRead : Z;             (* int64 *)
  BytesPerSec : float64.t;   (* float64 *)
  TotalSize : Z              (* int64 *)
}.

(** The zero value [Stats{}]. *)
Definition Stats_zero : Stats :=
  {| Found := false; TotalWritten := 0; TotalRead := 0;
     BytesPerSec := float64.zero; TotalSize := 0 |}.

Definition set_Found (p : Stats) (v : bool) : Stats :=
  {| Found := v; TotalWritten := TotalWritten p; TotalRead := TotalRead p;
     BytesPerSec := BytesPerSec p; TotalSize := TotalSize p |}.

Definition set_TotalWritten (p : Stats) (v : Z) : Stats :=
  {| Found := Found p; TotalWritten := v; TotalRead := TotalRead p;
     BytesPerSec := BytesPerSec p; TotalSize := TotalSize p |}.

Definition set_TotalRead (p : Stats) (v : Z) : Stats :=
  {| Found := Found p; TotalWritten := TotalWritten p; TotalRead := v;
     BytesPerSec := BytesPerSec p; TotalSize := TotalSize p |}.

Definition set_BytesPerSec (p : Stats) (v : float64.t) : Stats :=
  {| Found := Found p; TotalWritten := TotalWritten p; TotalRead := TotalRead p;
     BytesPerSec := v; TotalSize := TotalSize p |}.

Definition set_TotalSize (p : Stats) (v : Z) : Stats :=
  {| Found := Found p; TotalWritten := TotalWritten p; TotalRead := TotalRead p;
     BytesPerSec := BytesPerSec p; TotalSize := v |}.

(** [Speedup] calculates the speed-up of using rsync over copying the data
    as-is: [float64(p.TotalSize / (p.TotalWritten + p.TotalRead))]. *)
Definition Speedup (p : Stats) : outcome float64.t :=
  q <- int64.div (TotalSize p) (int64.add (TotalWritten p) (TotalRead p)) ;;
  Returned (float64.of_int q).

Definition digits_commas : regexp.class := [("0", "9"); (",", ",")]%char.
Definition digits_commas_dots : regexp.class :=
  [("0", "9"); (",", ","); (".", ".")]%char.

(** [^sent ([0-9,]+) bytes  received ([0-9,]+) bytes  ([0-9,.]+) bytes/sec$] *)
Definition statsTransferRe : regexp.Regexp :=
  [ regexp.Literal "sent "; regexp.CapturePlus digits_commas;
    regexp.Literal " bytes  received "; regexp.CapturePlus digits_commas;
    regexp.Literal " bytes  "; regexp.CapturePlus digits_commas_dots;
    regexp.Literal " bytes/sec" ].

(** [^total size is ([0-9,]+)  speedup is ([0-9,.]+)$] *)
Definition statsSizeRe : regexp.Regexp :=
  [ regexp.Literal "total size is "; regexp.CapturePlus digits_commas;
    regexp.Literal "  speedup is "; regexp.CapturePlus digits_commas_dots ].

(** What [Parse] returns: a [*Stats] and an [error], either of which
    may be nil. *)
Definition result : Type := (option Stats * option error)%type.

(** How one turn of the scanning loop ends: the loop goes on with the
    record as it now is, or [Parse] returns. *)
Inductive control : Type :=
| Continue (p : Stats)
| Return (r : result).

Definition sent_error : error :=
  ErrorString "could not parse rsync 'sent' line; try starting rsync with LC_ALL=C.UTF-8".

(** The body of the loop of [Parse], on one line. *)
Definition Parse_line (p : Stats) (line : string) : outcome control :=
  if strings.HasPrefix line "sent " then
    let matches := regexp.FindStringSubmatch statsTransferRe line in
    if (List.length matches =? 0)%nat then
      Returned (Return (None, Some sent_error))
    else
      let p := set_Found p true in
      m1 <- index matches 1 ;;
      let '(v, err) := strconv.ParseInt (strings.ReplaceAll m1 "," "") 0 64 in
      let p := set_TotalWritten p v in
      match err with
      | Some e => Returned (Return (None, Some e))
      | None =>
          m2 <- index matches 2 ;;
          let '(v, err) := strconv.ParseInt (strings.ReplaceAll m2 "," "") 0 64 in
          let p := set_TotalRead p v in
          match err with
          | Some e => Returned (Return (None, Some e))
          | None =>
              m3 <- index matches 3 ;;
              let '(v, err) := strconv.ParseFloat (strings.ReplaceAll m3 "," "") in
              let p := set_BytesPerSec p v in
              match err with
              | Some e => Returned (Return (None, Some e))
              | None => Returned (Continue p)
              end
          end
      end
  else if strings.HasPrefix line "total size is " then
    let matches := regexp.FindStringSubmatch statsSizeRe line in
    let p := set_Found p true in
    m1 <- index matches 1 ;;
    let '(v, err) := strconv.ParseInt (strings.ReplaceAll m1 "," "") 0 64 in
    let p := set_TotalSize p v in
    match err with
    | Some e => Returned (Return (None, Some e))
    | None => Returned (Continue p)
    end
  else Returned (Continue p).

(** The loop [for scan.Scan() { ... }] over the tokens of the scanner. *)
Fixpoint Parse_loop (p : Stats) (lines : list string) : outcome control :=
  match lines with
  | [] => Returned (Continue p)
  | line :: lines' =>
      c <- Parse_line p line ;;
      match c with
      | Continue p' => Parse_loop p' lines'
      | Return r => Returned (Return r)
      end
  end.

(** [Parse] reads from the specified reader and scans individual lines. *)
Definition Parse (r : bufio.Reader) : outcome result :=
  let p := Stats_zero in
  let scan := bufio.NewScanner r in
  c <- Parse_loop p (bufio.tokens scan) ;;
  match c with
  | Return res => Returned res
  | Continue p =>
      match bufio.Err scan with
      | Some err =>
          match err with
          | EOF => Returned (Some p, None)
          | _ => Returned (None, Some err)
          end
      | None => Returned (Some p, None)
      end
  end.

(** A reader over a whole text, ending in a clean end of stream. *)
Definition text (s : string) : bufio.Reader :=
  {| bufio.r_data := s; bufio.r_err := EOF |}.

Definition nl : string := String "010" EmptyString.


(** A line [Parse] does not look into: it has neither prefix. *)
Definition unrecognized (line : string) : Prop :=
  strings.HasPrefix line "sent " = false /\
  strings.HasPrefix line "total size is " = false.

(** The lines of a text as [ScanLines] cuts them, whatever their length. *)
Fixpoint lines_of_segments (segs : list string) : list string :=
  match segs with
  | [] => []
  | [final] =>
      match final with
      | EmptyString => []
      | _ => [bufio.dropCR final]
      end
  | seg :: segs' => bufio.dropCR seg :: lines_of_segments segs'
  end.

Definition lines (data : string) : list string :=
  lines_of_segments (bufio.segments data).

(** [r] is an input that is read to a clean end of stream, every line of
    which fits the scanner's buffer, and whose lines are [ls]. *)
Definition input_lines (r : bufio.Reader) (ls : list string) : Prop :=
  bufio.r_err r = EOF /\
  Forall (fun seg => bufio.fits seg = true) (bufio.segments (bufio.r_data r)) /\
  lines (bufio.r_data r) = ls.

(** A transfer-totals line that is well-formed: it matches the pattern and
    each captured number converts, to [w], [rd] and [bps]. *)
Definition transfer_line (t : string) (w rd : Z) (bps : float64.t) : Prop :=
  exists n1 n2 n3 : string,
    regexp.FindStringSubmatch statsTransferRe t = [t; n1; n2; n3] /\
    strconv.ParseInt (strings.ReplaceAll n1 "," "") 0 64 = (w, None) /\
    strconv.ParseInt (strings.ReplaceAll n2 "," "") 0 64 = (rd, None) /\
    strconv.ParseFloat (strings.ReplaceAll n3 "," "") = (bps, None).

(** A total-size line that is well-formed: it matches the pattern and the
    captured size converts, to [sz]. *)
Definition size_line (s : string) (sz : Z) : Prop :=
  exists n4 n5 : string,
    regexp.FindStringSubmatch statsSizeRe s = [s; n4; n5] /\
    strconv.ParseInt (strings.ReplaceAll n4 "," "") 0 64 = (sz, None).

(** The record of the documentation's example: 1188046 bytes in all, 1590
    sent and 18 received. *)
Definition example_stats : Stats :=
  {| Found := true; TotalWritten := 1590; TotalRead := 18;
     BytesPerSec := float64.of_int 3216; TotalSize := 1188046 |}.

(** The two summary lines of the documentation's example. *)
Definition example_transfer_line : string :=
  "sent 1,590 bytes  received 18 bytes  3,216.00 bytes/sec".
Definition example_size_line : string :=
  "total size is 1,188,046  speedup is 738.83".

(** Every byte of [s] satisfies [f]. *)
Fixpoint all_bytes (f : ascii -> bool) (s : string) : bool :=
  match s with
  | EmptyString => true
  | String c s' => f c && all_bytes f s'
  end.

(** A string the group [([cls]+)] can capture: not empty, bytes of the
    class only. *)
Definition class_string (cls : regexp.class) (s : string) : Prop :=
  s <> EmptyString /\ all_bytes (regexp.class_mem cls) s = true.

(** [s] is empty or starts with a byte outside the class. *)
Definition not_class_head (cls : regexp.class) (s : string) : Prop :=
  match s with
  | EmptyString => True
  | String c _ => regexp.class_mem cls c = false
  end.

(** The number a string of decimal digits denotes, most significant
    digit first, on top of the digits [n] read before it. *)
Fixpoint decimal_acc (n : Z) (s : string) : Z :=
  match s with
  | EmptyString => n
  | String c s' => decimal_acc (n * 10 + (byte_val c - byte_val "0")) s'
  end.

Definition decimal_value (s : string) : Z := decimal_acc 0 s.

(** A decimal numeral as rsync prints a count once the commas are gone:
    digits only, at least one, and no zero in front of another digit. *)
Definition decimal_numeral (s : string) : Prop :=
  all_bytes is_digit s = true /\
  match s with
  | EmptyString => False
  | String c rest => c = "0"%char -> rest = EmptyString
  end.

Definition is_digit_or_dot (c : ascii) : bool := is_digit c || Ascii.eqb c ".".

(** The text made of the lines [ls], a newline after each. *)
Fixpoint unlines (ls : list string) : string :=
  match ls with
  | [] => EmptyString
  | l :: ls' => l ++ nl ++ unlines ls'
  end.

Definition not_newline (c : ascii) : bool := negb (Ascii.eqb c "010").

(** [n] times the byte [c]. *)
Fixpoint replicate (n : nat) (c : ascii) : string :=
  match n with
  | O => EmptyString
  | S n' => String c (replicate n' c)
  end.

(** A line of 100000 bytes, more than the scanner's buffer can hold. *)
Definition long_line : string := replicate (N.to_nat 100000) "x".

(** A line [Parse] looks into: it has one of the two prefixes. *)
Definition recognized (line : string) : bool :=
  strings.HasPrefix line "sent " || strings.HasPrefix line "total size is ".

(** A byte count as [Parse] can store one: not negative, within int64. *)
Definition count_ok (x : Z) : Prop := 0 <= x <= int64.max_int.

(** A rate as [Parse] can store one: zero or a positive finite float64;
    not a NaN, not an infinity, nothing negative. *)
Definition rate_ok (f : float64.t) : Prop :=
  f = S754_zero false \/ exists m e, f = S754_finite false m e.

Definition stats_ok (p : Stats) : Prop :=
  count_ok (TotalWritten p) /\ count_ok (TotalRead p) /\
  count_ok (TotalSize p) /\ rate_ok (BytesPerSec p).

(** The line [l] with a carriage return after it. *)
Definition addCR (l : string) : string := l ++ String "013" EmptyString.

(** The shape of a transfer-totals line and of a total-size line around
    their numbers. *)
Definition transfer_shape (n1 n2 n3 : string) : string :=
  "sent " ++ n1 ++ " bytes  received " ++ n2 ++ " bytes  " ++ n3 ++ " bytes/sec".
Definition size_shape (n4 n5 : string) : string :=
  "total size is " ++ n4 ++ "  speedup is " ++ n5.

(** What the loop does with the three numbers of a matched transfer-totals
    line: the conversions in the order of the code, the first error ending
    [Parse]. *)
Definition store_transfer (p : Stats) (n1 n2 n3 : string) : control :=
  match strconv.ParseInt (strings.ReplaceAll n1 "," "") 0 64 with
  | (_, Some e) => Return (None, Some e)
  | (w, None) =>
      match strconv.ParseInt (strings.ReplaceAll n2 "," "") 0 64 with
      | (_, Some e) => Return (None, Some e)
      | (rd, None) =>
          match strconv.ParseFloat (strings.ReplaceAll n3 "," "") with
          | (_, Some e) => Return (None, Some e)
          | (bps, None) =>
              Continue {| Found := true; TotalWritten := w; TotalRead := rd;
                          BytesPerSec := bps; TotalSize := TotalSize p |}
          end
      end
  end.

(** What the loop does with the size of a matched total-size line. *)
Definition store_size (p : Stats) (n4 : string) : control :=
  match strconv.ParseInt (strings.ReplaceAll n4 "," "") 0 64 with
  | (_, Some e) => Return (None, Some e)
  | (sz, None) =>
      Continue {| Found := true; TotalWritten := TotalWritten p;
                  TotalRead := TotalRead p; BytesPerSec := BytesPerSec p;
                  TotalSize := sz |}
  end.

(** A line with the prefix [total size is ] that [statsSizeRe] does not
    match. *)
Definition malformed_size_line (line : string) : Prop :=
  strings.HasPrefix line "sent " = false /\
  strings.HasPrefix line "total size is " = true /\
  regexp.FindStringSubmatch statsSizeRe line = [].

(** [Parse] from the tokens the scanner yields and the error it stops on. *)
Definition Parse_tokens (toks : list string) (err : error) : outcome result :=
  c <- Parse_loop Stats_zero toks ;;
  match c with
  | Return res => Returned res
  | Continue p =>
      match err with
      | EOF => Returned (Some p, None)
      | e => Returned (None, Some e)
      end
  end.

(** A byte that ends no line: neither a newline nor a carriage return. *)
Definition plain_byte (c : ascii) : bool :=
  negb (Ascii.eqb c "010") && negb (Ascii.eqb c "013").

(** A float64 that is a number: a zero or a finite value, neither an
    infinity nor a NaN. *)
Definition finite_float (f : float64.t) : Prop :=
  match f with
  | S754_zero _ | S754_finite _ _ _ => True
  | _ => False
  end.

(** A count as rsync prints it, and the number [v] it stands for: digits
    and commas; the commas aside, a decimal numeral with no zero in front of
    another digit; [v] its decimal value, which is within int64. *)
Definition decimal_count (n : string) (v : Z) : Prop :=
  class_string digits_commas n /\
  decimal_numeral (strings.ReplaceAll n "," "") /\
  v = decimal_value (strings.ReplaceAll n "," "") /\
  v <= int64.max_int.

(** A rate as rsync prints it, and the float64 [f] it stands for: digits,
    commas and points; the commas aside, the digits [ip], then possibly one
    point and the digits [fp], with a digit on one side at least; [f] the
    float64 nearest to that decimal number, which is within the range of
    float64. *)
Definition decimal_rate (n : string) (f : float64.t) : Prop :=
  class_string digits_commas_dots n /\
  exists ip fp : string,
    all_bytes is_digit ip = true /\ all_bytes is_digit fp = true /\
    ip ++ fp <> EmptyString /\
    (strings.ReplaceAll n "," "" = ip ++ "." ++ fp \/
     (strings.ReplaceAll n "," "" = ip /\ fp = EmptyString)) /\
    f = float64.of_decimal (decimal_value (ip ++ fp)) (String.length fp) /\
    finite_float f.

(** * Properties *)

(** ** Strings *)

Lemma append_assoc (a b c : string) : (a ++ b) ++ c = a ++ (b ++ c).
Proof.
  induction a as [|x a IH]; [reflexivity|]. cbn. now rewrite IH.
Qed.

Lemma append_nil_r (a : string) : a ++ "" = a.
Proof.
  induction a as [|x a IH]; [reflexivity|]. cbn. now rewrite IH.
Qed.

(** ** The scanner *)

Lemma scan_fits (e : error) (segs : list string) :
  Forall (fun seg => bufio.fits seg = true) segs ->
  bufio.scan e segs = (lines_of_segments segs, e).
Proof.
  induction 1 as [|seg segs Hseg Hsegs IH]; [reflexivity|].
  cbn [bufio.scan lines_of_segments].
  destruct segs as [|seg' segs'].
  - destruct seg; [reflexivity|]. now rewrite Hseg.
  - now rewrite Hseg, IH.
Qed.

Lemma NewScanner_input_lines (r : bufio.Reader) (ls : list string) :
  input_lines r ls ->
  bufio.NewScanner r = {| bufio.tokens := ls; bufio.err := EOF |}.
Proof.
  intros (Herr & Hfits & Hls). unfold bufio.NewScanner.
  rewrite (scan_fits _ _ Hfits), Herr. unfold lines in Hls. now rewrite Hls.
Qed.

(** A line that does not fit the buffer stops the scan: the lines after it
    are never seen. *)
Lemma scan_too_long (e : error) (seg : string) (segs : list string) :
  bufio.fits seg = false ->
  bufio.scan e (seg :: segs) = ([], ErrTooLong).
Proof.
  intros Hseg. cbn [bufio.scan]. rewrite Hseg.
  destruct segs; [|reflexivity].
  destruct seg; [discriminate Hseg|reflexivity].
Qed.

(** ** Texts made of lines *)

Lemma segments_line (l rest : string) :
  all_bytes not_newline l = true ->
  bufio.segments (l ++ nl ++ rest) = l :: bufio.segments rest.
Proof.
  induction l as [|c l IH]; intros H; [reflexivity|].
  cbn [all_bytes] in H. apply andb_prop in H as [Hc Hl].
  cbn [append bufio.segments]. unfold not_newline in Hc.
  destruct (Ascii.eqb c "010"); [discriminate Hc|].
  now rewrite (IH Hl).
Qed.

Lemma segments_unlines (ls : list string) :
  Forall (fun l => all_bytes not_newline l = true) ls ->
  bufio.segments (unlines ls) = (ls ++ [EmptyString])%list.
Proof.
  induction 1 as [|l ls Hl _ IH]; [reflexivity|].
  cbn [unlines app]. now rewrite (segments_line _ _ Hl), IH.
Qed.

Lemma lines_of_segments_terminated (ls : list string) :
  lines_of_segments (ls ++ [EmptyString])%list = map bufio.dropCR ls.
Proof.
  induction ls as [|l ls IH]; [reflexivity|].
  cbn [app map]. rewrite <- IH. cbn [lines_of_segments].
  destruct (ls ++ [""])%list eqn:E; [now destruct ls|reflexivity].
Qed.

(** Lines without a newline in them, each fitting the buffer, written one
    after the other with a newline after each, are an input that the
    scanner reads back, a trailing carriage return dropped from each. *)
Lemma input_lines_unlines (ls : list string) :
  Forall (fun l => all_bytes not_newline l = true) ls ->
  Forall (fun l => bufio.fits l = true) ls ->
  input_lines (text (unlines ls)) (map bufio.dropCR ls).
Proof.
  intros Hnl Hfit. unfold input_lines, lines, text. cbn [bufio.r_err bufio.r_data].
  rewrite (segments_unlines _ Hnl). repeat split.
  - apply Forall_app. split; [exact Hfit|]. now repeat constructor.
  - apply lines_of_segments_terminated.
Qed.

(** *** A line too long for the buffer *)

Lemma length_replicate (n : nat) (c : ascii) : String.length (replicate n c) = n.
Proof.
  induction n as [|n IH]; [reflexivity|]. cbn. now rewrite IH.
Qed.

Lemma all_bytes_replicate (f : ascii -> bool) (n : nat) (c : ascii) :
  f c = true -> all_bytes f (replicate n c) = true.
Proof.
  intros Hc. induction n as [|n IH]; [reflexivity|]. cbn. now rewrite Hc, IH.
Qed.

Lemma dropCR_no_CR (s : string) :
  all_bytes (fun c => negb (Ascii.eqb c "013")) s = true -> bufio.dropCR s = s.
Proof.
  induction s as [|c s IH]; [reflexivity|]. cbn [all_bytes]. intros H.
  apply andb_prop in H as [Hc Hs]. cbn [bufio.dropCR].
  destruct s as [|c' s'].
  - destruct (Ascii.eqb c "013"); [discriminate Hc|reflexivity].
  - now rewrite (IH Hs).
Qed.

Lemma long_line_fits : bufio.fits long_line = false.
Proof.
  unfold bufio.fits, long_line. rewrite length_replicate, N_nat_Z. reflexivity.
Qed.

Lemma long_line_not_newline : all_bytes not_newline long_line = true.
Proof. now apply all_bytes_replicate. Qed.

Lemma long_line_dropCR : bufio.dropCR long_line = long_line.
Proof. apply dropCR_no_CR. now apply all_bytes_replicate. Qed.

Lemma long_line_cons : exists rest, long_line = String "x" rest.
Proof.
  unfold long_line.
  assert (H : exists n, N.to_nat 100000 = S n).
  { exists (N.to_nat 99999). rewrite <- N2Nat.inj_succ. reflexivity. }
  destruct H as [n ->]. now exists (replicate n "x").
Qed.

Lemma long_line_unrecognized : unrecognized long_line.
Proof.
  destruct long_line_cons as [rest ->]. split; reflexivity.
Qed.

Lemma segments_no_newline (s : string) :
  all_bytes not_newline s = true -> bufio.segments s = [s].
Proof.
  induction s as [|c s IH]; [reflexivity|]. cbn [all_bytes]. intros H.
  apply andb_prop in H as [Hc Hs]. cbn [bufio.segments].
  unfold not_newline in Hc. destruct (Ascii.eqb c "010"); [discriminate Hc|].
  now rewrite (IH Hs).
Qed.

(** ** The loop *)

Lemma Parse_line_unrecognized (p : Stats) (line : string) :
  unrecognized line -> Parse_line p line = Returned (Continue p).
Proof.
  intros [Hsent Hsize]. unfold Parse_line. now rewrite Hsent, Hsize.
Qed.

Lemma Parse_loop_unrecognized (p : Stats) (ls : list string) :
  Forall unrecognized ls -> Parse_loop p ls = Returned (Continue p).
Proof.
  induction 1 as [|line ls Hline _ IH]; [reflexivity|].
  cbn [Parse_loop]. rewrite (Parse_line_unrecognized _ _ Hline). exact IH.
Qed.

Lemma Parse_loop_app (p : Stats) (ls1 ls2 : list string) :
  Parse_loop p (ls1 ++ ls2) =
  (c <- Parse_loop p ls1 ;;
   match c with
   | Continue p' => Parse_loop p' ls2
   | Return r => Returned (Return r)
   end).
Proof.
  revert p. induction ls1 as [|line ls1 IH]; intros p; [reflexivity|].
  cbn [app Parse_loop]. destruct (Parse_line p line) as [[p'|r]|pn]; cbn [bind].
  - apply IH.
  - reflexivity.
  - reflexivity.
Qed.

(** What [Parse] returns once the loop has run through all the lines. *)
Lemma Parse_loop_done (r : bufio.Reader) (p : Stats) :
  Parse_loop Stats_zero (bufio.tokens (bufio.NewScanner r)) = Returned (Continue p) ->
  Parse r = Returned (match bufio.Err (bufio.NewScanner r) with
                      | Some e => (None, Some e)
                      | None => (Some p, None)
                      end).
Proof.
  intros Hloop. unfold Parse. rewrite Hloop. cbn [bind].
  unfold bufio.Err. now destruct (bufio.err (bufio.NewScanner r)).
Qed.

(** Unrecognized lines alone never make [Parse] fail: the only error such
    an input can end in is the scanner's own. *)
Lemma Parse_unrecognized_only (r : bufio.Reader) :
  Forall unrecognized (bufio.tokens (bufio.NewScanner r)) ->
  Parse r = Returned (match bufio.Err (bufio.NewScanner r) with
                      | Some e => (None, Some e)
                      | None => (Some Stats_zero, None)
                      end).
Proof.
  intros H. apply Parse_loop_done. now apply Parse_loop_unrecognized.
Qed.

(** An input with a line of [MaxScanTokenSize] bytes or more in front ends
    in [ErrTooLong], whatever the line holds. *)
Lemma Parse_too_long (r : bufio.Reader) (seg : string) (segs : list string) :
  bufio.segments (bufio.r_data r) = seg :: segs ->
  bufio.fits seg = false ->
  Parse r = Returned (None, Some ErrTooLong).
Proof.
  intros Hsegs Hseg. unfold Parse, bufio.NewScanner, bufio.Err.
  now rewrite Hsegs, (scan_too_long _ _ _ Hseg).
Qed.

(** ** Recognized lines *)

Lemma strip_literal_prefix (l s s' : string) :
  regexp.strip_literal l s = Some s' -> String.prefix l s = true.
Proof.
  revert s. induction l as [|a l IH]; intros s H.
  - now destruct s.
  - destruct s as [|b s]; [discriminate H|].
    cbn [regexp.strip_literal String.prefix] in H |- *.
    destruct (Ascii.eqb_spec a b) as [->|Hab]; [|discriminate H].
    destruct (ascii_dec b b) as [_|Hb]; [now apply IH | now destruct Hb].
Qed.

Lemma transfer_line_prefix (t : string) (w rd : Z) (bps : float64.t) :
  transfer_line t w rd bps -> strings.HasPrefix t "sent " = true.
Proof.
  intros (n1 & n2 & n3 & Hm & _). unfold regexp.FindStringSubmatch in Hm.
  unfold statsTransferRe in Hm. cbn [regexp.match_nodes] in Hm.
  destruct (regexp.strip_literal "sent " t) as [t'|] eqn:Hs; [|discriminate Hm].
  exact (strip_literal_prefix _ _ _ Hs).
Qed.

Lemma size_line_prefix (s : string) (sz : Z) :
  size_line s sz ->
  strings.HasPrefix s "sent " = false /\
  strings.HasPrefix s "total size is " = true.
Proof.
  intros (n4 & n5 & Hm & _). unfold regexp.FindStringSubmatch in Hm.
  unfold statsSizeRe in Hm. cbn [regexp.match_nodes] in Hm.
  destruct (regexp.strip_literal "total size is " s) as [s'|] eqn:Hs;
    [|discriminate Hm].
  split; [|exact (strip_literal_prefix _ _ _ Hs)].
  destruct s as [|b s]; [reflexivity|]. cbn [regexp.strip_literal] in Hs.
  destruct (Ascii.eqb_spec "t" b) as [<-|_]; [reflexivity|discriminate Hs].
Qed.

Lemma Parse_line_transfer (p : Stats) (t : string) (w rd : Z) (bps : float64.t) :
  transfer_line t w rd bps ->
  Parse_line p t =
  Returned (Continue {| Found := true; TotalWritten := w; TotalRead := rd;
                        BytesPerSec := bps; TotalSize := TotalSize p |}).
Proof.
  intros Ht. pose proof (transfer_line_prefix _ _ _ _ Ht) as Hpre.
  destruct Ht as (n1 & n2 & n3 & Hm & H1 & H2 & H3).
  unfold Parse_line. rewrite Hpre, Hm. cbn [List.length Nat.eqb index nth_error bind].
  rewrite H1, H2, H3. reflexivity.
Qed.

Lemma Parse_line_size (p : Stats) (s : string) (sz : Z) :
  size_line s sz ->
  Parse_line p s =
  Returned (Continue {| Found := true; TotalWritten := TotalWritten p;
                        TotalRead := TotalRead p; BytesPerSec := BytesPerSec p;
                        TotalSize := sz |}).
Proof.
  intros Hs. destruct (size_line_prefix _ _ Hs) as [Hsent Hsize].
  destruct Hs as (n4 & n5 & Hm & H4).
  unfold Parse_line. rewrite Hsent, Hsize, Hm. cbn [index nth_error bind].
  rewrite H4. reflexivity.
Qed.

(** A line with the prefix [sent ] that the pattern does not match makes
    the loop return the format error, and no record. *)
Lemma Parse_line_sent_mismatch (p : Stats) (line : string) :
  strings.HasPrefix line "sent " = true ->
  regexp.match_nodes statsTransferRe line = None ->
  Parse_line p line = Returned (Return (None, Some sent_error)).
Proof.
  intros Hpre Hm. unfold Parse_line, regexp.FindStringSubmatch.
  now rewrite Hpre, Hm.
Qed.

(** A line with the prefix [total size is ] that the pattern does not
    match makes the loop panic: [matches] is nil and [matches[1]] is out of
    range. *)
Lemma Parse_line_size_mismatch (p : Stats) (line : string) :
  strings.HasPrefix line "sent " = false ->
  strings.HasPrefix line "total size is " = true ->
  regexp.match_nodes statsSizeRe line = None ->
  Parse_line p line = Panicked (IndexOutOfRange 1 0).
Proof.
  intros Hsent Hsize Hm. unfold Parse_line, regexp.FindStringSubmatch.
  now rewrite Hsent, Hsize, Hm.
Qed.

(** In an input of lines that fit the buffer, a first recognized line with
    the prefix [sent ] and not the shape of the pattern makes [Parse] return
    the format error and no record, whatever follows it. *)
Lemma Parse_sent_mismatch (data : string) (us rest : list string) (bad : string) :
  Forall (fun seg => bufio.fits seg = true) (bufio.segments data) ->
  lines data = (us ++ bad :: rest)%list ->
  Forall unrecognized us ->
  strings.HasPrefix bad "sent " = true ->
  regexp.match_nodes statsTransferRe bad = None ->
  Parse (text data) = Returned (None, Some sent_error).
Proof.
  intros Hfits Hl Hus Hpre Hm.
  assert (Hin : input_lines (text data) (us ++ bad :: rest)) by now repeat split.
  unfold Parse. rewrite (NewScanner_input_lines _ _ Hin). cbn [bufio.tokens].
  rewrite Parse_loop_app, (Parse_loop_unrecognized _ _ Hus). cbn [bind Parse_loop].
  now rewrite (Parse_line_sent_mismatch _ _ Hpre Hm).
Qed.

(** The same with the prefix [total size is ]: [Parse] panics. *)
Lemma Parse_size_mismatch (data : string) (us rest : list string) (bad : string) :
  Forall (fun seg => bufio.fits seg = true) (bufio.segments data) ->
  lines data = (us ++ bad :: rest)%list ->
  Forall unrecognized us ->
  strings.HasPrefix bad "sent " = false ->
  strings.HasPrefix bad "total size is " = true ->
  regexp.match_nodes statsSizeRe bad = None ->
  Parse (text data) = Panicked (IndexOutOfRange 1 0).
Proof.
  intros Hfits Hl Hus Hsent Hsize Hm.
  assert (Hin : input_lines (text data) (us ++ bad :: rest)) by now repeat split.
  unfold Parse. rewrite (NewScanner_input_lines _ _ Hin). cbn [bufio.tokens].
  rewrite Parse_loop_app, (Parse_loop_unrecognized _ _ Hus). cbn [bind Parse_loop].
  now rewrite (Parse_line_size_mismatch _ _ Hsent Hsize Hm).
Qed.

(** ** The examples of the documentation *)

(** C4: the single line
    [sent 1,590 bytes  received 18 bytes  3,216.00 bytes/sec], with or
    without a final line break, is parsed without error to a record with
    [Found] true, [TotalWritten] 1590, [TotalRead] 18 and [BytesPerSec]
    3216 (3216 * 2^41 * 2^-41 as a binary64), [TotalSize] staying zero. *)
Theorem Parse_transfer_line_example :
  let line := "sent 1,590 bytes  received 18 bytes  3,216.00 bytes/sec" in
  let want := {| Found := true; TotalWritten := 1590; TotalRead := 18;
                 BytesPerSec := float64.of_int 3216; TotalSize := 0 |} in
  Parse (text line) = Returned (Some want, None) /\
  Parse (text (line ++ nl)) = Returned (Some want, None) /\
  float64.of_int 3216 = S754_finite false (3216 * 2 ^ 41) (-41).
Proof.
  cbv zeta. repeat split; vm_compute; reflexivity.
Qed.

(** C5: the single line [total size is 1,188,046  speedup is 738.83], with
    or without a final line break, is parsed without error to a record with
    [Found] true and [TotalSize] 1188046; the captured [738.83] goes into no
    field: [TotalWritten], [TotalRead] and [BytesPerSec] stay zero. *)
Theorem Parse_size_line_example :
  let line := "total size is 1,188,046  speedup is 738.83" in
  let want := {| Found := true; TotalWritten := 0; TotalRead := 0;
                 BytesPerSec := float64.zero; TotalSize := 1188046 |} in
  regexp.FindStringSubmatch statsSizeRe line = [line; "1,188,046"; "738.83"] /\
  Parse (text line) = Returned (Some want, None) /\
  Parse (text (line ++ nl)) = Returned (Some want, None).
Proof.
  cbv zeta. repeat split; vm_compute; reflexivity.
Qed.

(** C10: the line [sent , bytes  received 1 bytes  1.0 bytes/sec] matches
    the whole pattern, its first capture is a lone comma, stripping the
    commas leaves the empty string, [ParseInt] fails on it, and [Parse]
    returns that conversion error, which is not the format error, and no
    record. *)
Theorem Parse_comma_only_number :
  let line := "sent , bytes  received 1 bytes  1.0 bytes/sec" in
  regexp.FindStringSubmatch statsTransferRe line = [line; ","; "1"; "1.0"] /\
  strings.ReplaceAll "," "," "" = "" /\
  strconv.ParseInt "" 0 64 = (0, Some (NumError "ParseInt" "" ErrSyntax)) /\
  Parse (text line) = Returned (None, Some (NumError "ParseInt" "" ErrSyntax)) /\
  NumError "ParseInt" "" ErrSyntax <> sent_error.
Proof.
  cbv zeta. repeat split; try (vm_compute; reflexivity). discriminate.
Qed.

(** C1: at the input [total size is abc], whose line has the prefix
    [total size is ] and not the shape of the pattern, [Parse] returns no
    format error: it panics on [matches[1]]; the same kind of line on the
    [sent ] side, [sent abc], gives the format error and no record. *)
Theorem Parse_malformed_size_line_panics :
  strings.HasPrefix "total size is abc" "total size is " = true /\
  regexp.FindStringSubmatch statsSizeRe "total size is abc" = [] /\
  Parse (text "total size is abc") = Panicked (IndexOutOfRange 1 0) /\
  Parse (text "sent abc") = Returned (None, Some sent_error).
Proof.
  repeat split; vm_compute; reflexivity.
Qed.

(** C3: at the input [sent 010 bytes  received 1 bytes  1.0 bytes/sec] the
    number stored for the capture [010] is 8, its value in octal, where the
    base-10 parse of [010] is 10; at [sent 08 bytes ...] the conversion
    fails, where the base-10 parse of [08] is 8.  [ParseInt] is called with
    base 0, which reads a leading zero as an octal prefix. *)
Theorem Parse_leading_zero_is_octal :
  Parse (text "sent 010 bytes  received 1 bytes  1.0 bytes/sec") =
    Returned (Some {| Found := true; TotalWritten := 8; TotalRead := 1;
                      BytesPerSec := float64.of_int 1; TotalSize := 0 |}, None) /\
  strconv.ParseInt "010" 10 64 = (10, None) /\
  Parse (text "sent 08 bytes  received 1 bytes  1.0 bytes/sec") =
    Returned (None, Some (NumError "ParseInt" "08" ErrSyntax)) /\
  strconv.ParseInt "08" 10 64 = (8, None).
Proof.
  repeat split; vm_compute; reflexivity.
Qed.

(** C7: at an input whose second line, [total size is 1,188,046], has the
    prefix and not the shape of the pattern, [Parse] returns neither a
    record nor an error: it panics, after a first line that parsed. *)
Theorem Parse_returns_nothing_on_malformed_size_line :
  Parse (text ("sent 1,590 bytes  received 18 bytes  3,216.00 bytes/sec" ++ nl ++
               "total size is 1,188,046" ++ nl)) =
  Panicked (IndexOutOfRange 1 0).
Proof.
  vm_compute. reflexivity.
Qed.

(** Whenever [Parse] does return, it returns a record or an error, never
    both and never neither. *)
Lemma Parse_record_xor_error (r : bufio.Reader) (rec : option Stats)
      (e : option error) :
  Parse r = Returned (rec, e) ->
  (rec = None /\ e <> None) \/ (rec <> None /\ e = None).
Proof.
  unfold Parse.
  assert (Hloop : forall ls p r',
             Parse_loop p ls = Returned (Return r') ->
             fst r' = None /\ snd r' <> None).
  { induction ls as [|line ls IH]; intros p r' H; [discriminate H|].
    cbn [Parse_loop] in H.
    destruct (Parse_line p line) as [[p'|r'']|pn] eqn:Hline; cbn [bind] in H.
    - exact (IH _ _ H).
    - injection H as <-. clear IH. unfold Parse_line in Hline.
      repeat match type of Hline with
             | context [if ?b then _ else _] => destruct b
             | context [index ?xs ?i] => destruct (index xs i); cbn [bind] in Hline
             | context [strconv.ParseInt ?s ?b ?n] => destruct (strconv.ParseInt s b n) as [? [?|]]
             | context [strconv.ParseFloat ?s] => destruct (strconv.ParseFloat s) as [? [?|]]
             end;
      try discriminate Hline; injection Hline as <-;
      (split; [reflexivity|discriminate]).
    - discriminate H. }
  destruct (Parse_loop Stats_zero _) as [[p|r']|pn] eqn:Hl; cbn [bind]; intros H.
  - destruct (bufio.Err _) as [[]|]; injection H as <- <-;
      (left; split; [reflexivity|discriminate]) ||
      (right; split; [discriminate|reflexivity]).
  - injection H as ->. destruct (Hloop _ _ _ Hl) as [H1 H2]. left. now split.
  - discriminate H.
Qed.

(** ** Inputs without a recognized line *)

(** C6, as the code has it: for an input every line of which has neither
    prefix and takes fewer than 65536 bytes, the size of the scanner's
    buffer, up to its newline, a carriage return before the newline
    counted, the empty input among them, [Parse] returns without error the
    zero record: [Found] false and every number zero.  The lines are skipped
    and none of them makes an error. *)
Theorem Parse_unrecognized_input (data : string) :
  Forall (fun seg => bufio.fits seg = true) (bufio.segments data) ->
  Forall unrecognized (lines data) ->
  Parse (text data) = Returned (Some Stats_zero, None) /\
  Found Stats_zero = false /\ TotalWritten Stats_zero = 0 /\
  TotalRead Stats_zero = 0 /\ BytesPerSec Stats_zero = S754_zero false /\
  TotalSize Stats_zero = 0.
Proof.
  intros Hfits Hls. split; [|now repeat split].
  assert (Hin : input_lines (text data) (lines data)) by now repeat split.
  rewrite Parse_unrecognized_only; rewrite (NewScanner_input_lines _ _ Hin).
  - reflexivity.
  - exact Hls.
Qed.

Lemma Parse_unrecognized_input_witness :
  (Forall (fun seg => bufio.fits seg = true) (bufio.segments "") /\
   Forall unrecognized (lines "") /\
   Parse (text "") = Returned (Some Stats_zero, None)) /\
  (let data := "receiving incremental file list" ++ nl ++ "./" ++ nl ++
               "sentinel.txt" ++ String "013" nl ++ nl ++ "total: 3 files" in
   lines data = ["receiving incremental file list"; "./"; "sentinel.txt"; "";
                 "total: 3 files"] /\
   Forall (fun seg => bufio.fits seg = true) (bufio.segments data) /\
   Forall unrecognized (lines data) /\
   Parse (text data) = Returned (Some Stats_zero, None)).
Proof.
  split.
  - assert (Hfits : Forall (fun seg => bufio.fits seg = true) (bufio.segments ""))
      by repeat constructor.
    assert (Hls : Forall unrecognized (lines "")) by constructor.
    split; [exact Hfits|]. split; [exact Hls|].
    exact (proj1 (Parse_unrecognized_input _ Hfits Hls)).
  - cbv zeta. split; [reflexivity|].
    match goal with
    | |- Forall _ (bufio.segments ?d) /\ _ =>
        assert (Hfits : Forall (fun seg => bufio.fits seg = true) (bufio.segments d))
          by repeat constructor;
        assert (Hls : Forall unrecognized (lines d)) by repeat constructor;
        split; [exact Hfits|]; split; [exact Hls|];
        exact (proj1 (Parse_unrecognized_input _ Hfits Hls))
    end.
Defined.

(** C6, as stated, fails: the one line of 100000 bytes [x] has neither
    prefix, and [Parse] returns the scanner's [ErrTooLong] and no record. *)
Lemma Parse_unrecognized_long_line_fails :
  lines long_line = [long_line] /\
  Forall unrecognized (lines long_line) /\
  Parse (text long_line) = Returned (None, Some ErrTooLong).
Proof.
  assert (Hsegs : bufio.segments long_line = [long_line])
    by exact (segments_no_newline _ long_line_not_newline).
  assert (Hl : lines long_line = [long_line]).
  { unfold lines. rewrite Hsegs. cbn [lines_of_segments].
    rewrite long_line_dropCR. now destruct long_line_cons as [rest ->]. }
  split; [exact Hl|]. split.
  - rewrite Hl. constructor; [exact long_line_unrecognized|constructor].
  - exact (Parse_too_long (text long_line) _ _ Hsegs long_line_fits).
Qed.

(** ** Speedup *)

Lemma wrap_in_range (x : Z) : int64.in_range x -> int64.wrap x = x.
Proof.
  unfold int64.in_range, int64.min_int, int64.max_int, int64.wrap. intros H.
  rewrite Z.mod_small; lia.
Qed.

Lemma wrap_zero_iff (x : Z) : int64.wrap x = 0 <-> x mod 2 ^ 64 = 0.
Proof.
  unfold int64.wrap.
  pose proof (Z.mod_pos_bound (x + 2 ^ 63) (2 ^ 64) ltac:(lia)) as Hb.
  split; intros H.
  - assert (Hm : (x + 2 ^ 63) mod 2 ^ 64 = 2 ^ 63) by lia.
    replace x with ((x + 2 ^ 63) - 2 ^ 63) by lia.
    rewrite Zminus_mod, Hm. reflexivity.
  - replace (x + 2 ^ 63) with (2 ^ 63 + x) by lia.
    rewrite Zplus_mod, H. reflexivity.
Qed.

(** C2: for every record whose sum [TotalWritten + TotalRead] is not zero,
    [Speedup] returns the int64 quotient of [TotalSize] by that sum, the
    division truncating, converted to float64 afterwards; with fields that
    are not negative, as in every record [Parse] makes, and a sum within
    int64, nothing wraps and this is [float64 (TotalSize / (TotalWritten +
    TotalRead))] with the quotient truncated. *)
Theorem Speedup_truncated_quotient (p : Stats) :
  int64.add (TotalWritten p) (TotalRead p) <> 0 ->
  Speedup p =
    Returned (float64.of_int
                (int64.wrap (Z.quot (TotalSize p)
                                    (int64.add (TotalWritten p) (TotalRead p))))) /\
  (0 <= TotalSize p <= int64.max_int ->
   0 <= TotalWritten p -> 0 <= TotalRead p ->
   TotalWritten p + TotalRead p <= int64.max_int ->
   Speedup p =
     Returned (float64.of_int
                 (Z.quot (TotalSize p) (TotalWritten p + TotalRead p)))).
Proof.
  intros Hsum.
  assert (H1 : Speedup p =
    Returned (float64.of_int
                (int64.wrap (Z.quot (TotalSize p)
                                    (int64.add (TotalWritten p) (TotalRead p)))))).
  { unfold Speedup, int64.div.
    destruct (Z.eqb_spec (int64.add (TotalWritten p) (TotalRead p)) 0) as [H0|_];
      [contradiction|reflexivity]. }
  split; [exact H1|].
  intros Hts Hw Hr Hwr. rewrite H1. unfold int64.add in *.
  assert (Hin : int64.in_range (TotalWritten p + TotalRead p)).
  { unfold int64.in_range, int64.min_int, int64.max_int in *. lia. }
  rewrite (wrap_in_range _ Hin) in *.
  rewrite wrap_in_range; [reflexivity|].
  assert (Hd : 0 < TotalWritten p + TotalRead p) by lia.
  rewrite Z.quot_div_nonneg by lia.
  pose proof (Z.div_pos (TotalSize p) _ (proj1 Hts) Hd).
  pose proof (Z.div_le_upper_bound (TotalSize p) (TotalWritten p + TotalRead p)
                (TotalSize p) Hd ltac:(nia)).
  unfold int64.in_range, int64.min_int, int64.max_int in *. lia.
Qed.

Lemma Speedup_truncated_quotient_witness :
  int64.add (TotalWritten example_stats) (TotalRead example_stats) <> 0 /\
  Z.quot 1188046 (1590 + 18) = 738 /\
  Speedup example_stats = Returned (float64.of_int 738) /\
  float64.of_int 738 = S754_finite false (738 * 2 ^ 43) (-43) /\
  float64.of_int 738 <>
    float64.div (float64.of_int 1188046) (float64.of_int (1590 + 18)).
Proof.
  assert (H : int64.add (TotalWritten example_stats) (TotalRead example_stats) <> 0).
  { vm_compute. discriminate. }
  split; [exact H|]. split; [reflexivity|]. split.
  - destruct (Speedup_truncated_quotient example_stats H) as [_ H2].
    rewrite H2; [reflexivity| | | |]; vm_compute; try discriminate; split; discriminate.
  - split; [reflexivity|]. vm_compute. discriminate.
Defined.

(** With fields that are not negative, as in every record [Parse] makes,
    the int64 sum is zero exactly when both fields are zero. *)
Lemma add_zero_nonneg (x y : Z) :
  0 <= x <= int64.max_int -> 0 <= y <= int64.max_int ->
  int64.add x y = 0 <-> x = 0 /\ y = 0.
Proof.
  unfold int64.max_int. intros Hx Hy. unfold int64.add. split.
  - intros H. apply wrap_zero_iff in H. rewrite Z.mod_small in H; lia.
  - intros [-> ->]. reflexivity.
Qed.

(** C9: [Speedup] divides without a guard.  It panics with a division by
    zero exactly on the records whose int64 sum [TotalWritten + TotalRead]
    is zero, and returns a value exactly on the others; the record [Parse]
    returns for the empty input is one of the former. *)
Theorem Speedup_divides_by_zero :
  (forall p : Stats,
      int64.add (TotalWritten p) (TotalRead p) = 0 <->
      Speedup p = Panicked IntegerDivideByZero) /\
  (forall p : Stats,
      int64.add (TotalWritten p) (TotalRead p) <> 0 <->
      exists f, Speedup p = Returned f) /\
  (exists p0, Parse (text "") = Returned (Some p0, None) /\
              int64.add (TotalWritten p0) (TotalRead p0) = 0 /\
              Speedup p0 = Panicked IntegerDivideByZero).
Proof.
  repeat split.
  - intros H. unfold Speedup, int64.div. now rewrite H.
  - unfold Speedup, int64.div.
    destruct (Z.eqb_spec (int64.add (TotalWritten p) (TotalRead p)) 0) as [H0|H0];
      [trivial|discriminate].
  - intros H. unfold Speedup, int64.div.
    destruct (Z.eqb_spec (int64.add (TotalWritten p) (TotalRead p)) 0) as [H0|H0];
      [contradiction|]. cbn [bind]. eauto.
  - intros [f Hf] H0. unfold Speedup, int64.div in Hf. rewrite H0 in Hf.
    discriminate Hf.
  - exists Stats_zero. repeat split.
Qed.

(** ** The patterns *)

Lemma strip_literal_app (l s : string) : regexp.strip_literal l (l ++ s) = Some s.
Proof.
  induction l as [|a l IH]; [now destruct s|].
  cbn. now rewrite Ascii.eqb_refl.
Qed.

Lemma strip_literal_inv (l s s' : string) :
  regexp.strip_literal l s = Some s' -> s = l ++ s'.
Proof.
  revert s. induction l as [|a l IH]; intros s H.
  - destruct s; injection H as <-; reflexivity.
  - destruct s as [|b s]; [discriminate H|].
    cbn [regexp.strip_literal] in H.
    destruct (Ascii.eqb_spec a b) as [->|_]; [|discriminate H].
    cbn. now rewrite <- (IH _ H).
Qed.

Lemma match_plus_not_class_head (cls : regexp.class)
      (k : string -> option (list string)) (acc s : string) :
  not_class_head cls s -> regexp.match_plus cls k acc s = None.
Proof.
  destruct s as [|c s]; [reflexivity|]. cbn. now intros ->.
Qed.

(** What a successful group has read is a string of the class, and the
    rest of the pattern matched what follows it. *)
Lemma match_plus_sound (cls : regexp.class) (k : string -> option (list string))
      (s acc : string) (caps : list string) :
  regexp.match_plus cls k acc s = Some caps ->
  exists run rest caps',
    s = run ++ rest /\ class_string cls run /\
    k rest = Some caps' /\ caps = (acc ++ run) :: caps'.
Proof.
  revert acc caps. induction s as [|c s IH]; intros acc caps H; [discriminate H|].
  cbn [regexp.match_plus] in H.
  destruct (regexp.class_mem cls c) eqn:Hc; [|discriminate H].
  destruct (regexp.match_plus cls k (acc ++ String c "") s) as [caps0|] eqn:Hm.
  - injection H as <-.
    destruct (IH _ _ Hm) as (run & rest & caps' & -> & [_ Hrun] & Hk & ->).
    exists (String c run), rest, caps'. repeat split.
    + discriminate.
    + cbn. now rewrite Hc, Hrun.
    + exact Hk.
    + now rewrite append_assoc.
  - destruct (k s) as [caps'|] eqn:Hk; [|discriminate H]. injection H as <-.
    exists (String c ""), s, caps'. repeat split.
    + discriminate.
    + cbn. now rewrite Hc.
    + exact Hk.
Qed.

(** A group reads the whole of a run that ends where the class ends. *)
Lemma match_plus_greedy (cls : regexp.class) (k : string -> option (list string))
      (run rest acc : string) (caps' : list string) :
  class_string cls run ->
  not_class_head cls rest ->
  k rest = Some caps' ->
  regexp.match_plus cls k acc (run ++ rest) = Some ((acc ++ run) :: caps').
Proof.
  intros [Hne Hrun] Hrest Hk. revert acc.
  induction run as [|c run IH]; intros acc; [now destruct Hne|].
  cbn [all_bytes] in Hrun. apply andb_prop in Hrun as [Hc Hrun].
  cbn [append regexp.match_plus]. rewrite Hc.
  destruct run as [|c' run].
  - cbn [append]. rewrite (match_plus_not_class_head _ _ _ _ Hrest), Hk.
    reflexivity.
  - rewrite IH; [|discriminate|exact Hrun]. now rewrite append_assoc.
Qed.

Lemma statsTransferRe_sound (line n1 n2 n3 : string) :
  regexp.match_nodes statsTransferRe line = Some [n1; n2; n3] ->
  line = "sent " ++ n1 ++ " bytes  received " ++ n2 ++ " bytes  " ++ n3 ++ " bytes/sec" /\
  class_string digits_commas n1 /\ class_string digits_commas n2 /\
  class_string digits_commas_dots n3.
Proof.
  unfold statsTransferRe. cbn [regexp.match_nodes]. intros H.
  destruct (regexp.strip_literal "sent " line) as [s1|] eqn:E1; [|discriminate H].
  apply strip_literal_inv in E1 as ->.
  apply match_plus_sound in H as (r1 & s2 & c1 & -> & Hr1 & H & Hc).
  injection Hc as Hn Hc; cbn [append] in Hn; subst.
  destruct (regexp.strip_literal " bytes  received " s2) as [s3|] eqn:E2;
    [|discriminate H].
  apply strip_literal_inv in E2 as ->.
  apply match_plus_sound in H as (r2 & s4 & c2 & -> & Hr2 & H & Hc).
  injection Hc as Hn Hc; cbn [append] in Hn; subst.
  destruct (regexp.strip_literal " bytes  " s4) as [s5|] eqn:E3; [|discriminate H].
  apply strip_literal_inv in E3 as ->.
  apply match_plus_sound in H as (r3 & s6 & c3 & -> & Hr3 & H & Hc).
  injection Hc as Hn Hc; cbn [append] in Hn; subst.
  destruct (regexp.strip_literal " bytes/sec" s6) as [s7|] eqn:E4; [|discriminate H].
  apply strip_literal_inv in E4 as ->.
  destruct s7; [|discriminate H].
  repeat split; apply Hr1 || apply Hr2 || apply Hr3.
Qed.

Lemma statsTransferRe_complete (n1 n2 n3 : string) :
  class_string digits_commas n1 -> class_string digits_commas n2 ->
  class_string digits_commas_dots n3 ->
  regexp.match_nodes statsTransferRe
    ("sent " ++ n1 ++ " bytes  received " ++ n2 ++ " bytes  " ++ n3 ++ " bytes/sec")
  = Some [n1; n2; n3].
Proof.
  intros H1 H2 H3. unfold statsTransferRe. cbn [regexp.match_nodes].
  cbn [regexp.match_nodes]. rewrite strip_literal_app.
  erewrite (match_plus_greedy _ _ n1); [reflexivity|exact H1|reflexivity|].
  cbn [regexp.match_nodes]. rewrite strip_literal_app.
  erewrite (match_plus_greedy _ _ n2); [reflexivity|exact H2|reflexivity|].
  cbn [regexp.match_nodes]. rewrite strip_literal_app.
  erewrite (match_plus_greedy _ _ n3); [reflexivity|exact H3|reflexivity|].
  reflexivity.
Qed.

Lemma statsSizeRe_sound (line n4 n5 : string) :
  regexp.match_nodes statsSizeRe line = Some [n4; n5] ->
  line = "total size is " ++ n4 ++ "  speedup is " ++ n5 /\
  class_string digits_commas n4 /\ class_string digits_commas_dots n5.
Proof.
  unfold statsSizeRe. cbn [regexp.match_nodes]. intros H.
  destruct (regexp.strip_literal "total size is " line) as [s1|] eqn:E1;
    [|discriminate H].
  apply strip_literal_inv in E1 as ->.
  apply match_plus_sound in H as (r1 & s2 & c1 & -> & Hr1 & H & Hc).
  injection Hc as Hn Hc; cbn [append] in Hn; subst.
  destruct (regexp.strip_literal "  speedup is " s2) as [s3|] eqn:E2;
    [|discriminate H].
  apply strip_literal_inv in E2 as ->.
  apply match_plus_sound in H as (r2 & s4 & c2 & -> & Hr2 & H & Hc).
  injection Hc as Hn Hc; cbn [append] in Hn; subst.
  destruct s4; [|discriminate H].
  rewrite append_nil_r.
  repeat split; apply Hr1 || apply Hr2.
Qed.

Lemma statsSizeRe_complete (n4 n5 : string) :
  class_string digits_commas n4 -> class_string digits_commas_dots n5 ->
  regexp.match_nodes statsSizeRe ("total size is " ++ n4 ++ "  speedup is " ++ n5)
  = Some [n4; n5].
Proof.
  intros H4 H5. unfold statsSizeRe. cbn [regexp.match_nodes].
  cbn [regexp.match_nodes]. rewrite strip_literal_app.
  erewrite (match_plus_greedy _ _ n4); [reflexivity|exact H4|reflexivity|].
  cbn [regexp.match_nodes]. rewrite strip_literal_app.
  rewrite <- (append_nil_r n5) at 1.
  erewrite (match_plus_greedy _ _ n5); [reflexivity|exact H5|exact I|reflexivity].
Qed.

(** ** Numbers *)

(** [ParseInt] at base 0 and bit size 64 on a few strings: a lone zero,
    the largest int64 and the number after it, a zero in front of other
    digits, and what the Go syntax of integer literals adds. *)
Example ParseInt_examples :
  strconv.ParseInt "0" 0 64 = (0, None) /\
  strconv.ParseInt "1188046" 0 64 = (1188046, None) /\
  strconv.ParseInt "9223372036854775807" 0 64 = (9223372036854775807, None) /\
  strconv.ParseInt "9223372036854775808" 0 64 =
    (9223372036854775807, Some (NumError "ParseInt" "9223372036854775808" ErrRange)) /\
  strconv.ParseInt "0777" 0 64 = (511, None) /\
  strconv.ParseInt "-0x1_f" 0 64 = (-31, None) /\
  strconv.ParseInt "1__0" 0 64 = (0, Some (NumError "ParseInt" "1__0" ErrSyntax)) /\
  strconv.ParseInt "12a" 0 64 = (0, Some (NumError "ParseInt" "12a" ErrSyntax)).
Proof.
  repeat split; vm_compute; reflexivity.
Qed.

(** [ParseFloat] on a few strings: the nearest binary64 of one tenth, a
    value that is exact, digits around the point, and what it refuses. *)
Example ParseFloat_examples :
  strconv.ParseFloat "0.1" = (S754_finite false 7205759403792794 (-56), None) /\
  strconv.ParseFloat "3216.00" = (float64.of_int 3216, None) /\
  strconv.ParseFloat "5." = (float64.of_int 5, None) /\
  strconv.ParseFloat ".5" = (S754_finite false (2 ^ 52) (-53), None) /\
  strconv.ParseFloat "000" = (float64.zero, None) /\
  strconv.ParseFloat "." = (float64.zero, Some (NumError "ParseFloat" "." ErrSyntax)) /\
  strconv.ParseFloat "1.2.3" =
    (float64.zero, Some (NumError "ParseFloat" "1.2.3" ErrSyntax)) /\
  strconv.ParseFloat "" = (float64.zero, Some (NumError "ParseFloat" "" ErrSyntax)).
Proof.
  repeat split; vm_compute; reflexivity.
Qed.

Lemma byte_val_inj (a b : ascii) : byte_val a = byte_val b -> a = b.
Proof.
  unfold byte_val. intros H. apply N2Z.inj in H.
  rewrite <- (ascii_N_embedding a), <- (ascii_N_embedding b). now rewrite H.
Qed.

Lemma is_digit_bounds (c : ascii) :
  is_digit c = true -> 0 <= byte_val c - byte_val "0" <= 9.
Proof.
  unfold is_digit. intros H. apply andb_prop in H as [H1 H2].
  apply Z.leb_le in H1, H2. change (byte_val "0") with 48 in *.
  change (byte_val "9") with 57 in *. lia.
Qed.

Lemma ReplaceAll_app (a b : string) (old : ascii) (new : string) :
  strings.ReplaceAll (a ++ b) old new =
  strings.ReplaceAll a old new ++ strings.ReplaceAll b old new.
Proof.
  induction a as [|c a IH]; [reflexivity|].
  cbn [append strings.ReplaceAll]. rewrite IH.
  destruct (Ascii.eqb c old); [now rewrite append_assoc|reflexivity].
Qed.

Lemma ReplaceAll_digits (s : string) :
  all_bytes is_digit s = true -> strings.ReplaceAll s "," "" = s.
Proof.
  induction s as [|c s IH]; [reflexivity|]. cbn [all_bytes strings.ReplaceAll].
  intros H. apply andb_prop in H as [Hc Hs].
  destruct (Ascii.eqb_spec c ",") as [->|_]; [discriminate Hc|].
  now rewrite (IH Hs).
Qed.

(** Commas gone, a capture of [[0-9,]+] holds digits only. *)
Lemma ReplaceAll_digits_commas (s : string) :
  all_bytes (regexp.class_mem digits_commas) s = true ->
  all_bytes is_digit (strings.ReplaceAll s "," "") = true.
Proof.
  induction s as [|c s IH]; [reflexivity|]. cbn [all_bytes strings.ReplaceAll].
  intros H. apply andb_prop in H as [Hc Hs].
  destruct (Ascii.eqb_spec c ",") as [->|Hne]; [exact (IH Hs)|].
  cbn [all_bytes]. rewrite (IH Hs), andb_true_r.
  unfold regexp.class_mem, digits_commas in Hc. cbn [existsb fst snd] in Hc.
  rewrite orb_false_r in Hc. apply orb_prop in Hc as [Hc|Hc]; [exact Hc|].
  apply andb_prop in Hc as [H1 H2]. apply Z.leb_le in H1, H2.
  destruct Hne. apply byte_val_inj. lia.
Qed.

(** Commas gone, a capture of [[0-9,.]+] holds digits and points only:
    these are the strings [Parse] passes to [ParseFloat]. *)
Lemma ReplaceAll_digits_commas_dots (s : string) :
  all_bytes (regexp.class_mem digits_commas_dots) s = true ->
  all_bytes is_digit_or_dot (strings.ReplaceAll s "," "") = true.
Proof.
  induction s as [|c s IH]; [reflexivity|]. cbn [all_bytes strings.ReplaceAll].
  intros H. apply andb_prop in H as [Hc Hs].
  destruct (Ascii.eqb_spec c ",") as [->|Hne]; [exact (IH Hs)|].
  cbn [all_bytes]. rewrite (IH Hs), andb_true_r.
  unfold regexp.class_mem, digits_commas_dots in Hc. cbn [existsb fst snd] in Hc.
  rewrite orb_false_r in Hc. unfold is_digit_or_dot.
  apply orb_prop in Hc as [Hc|Hc]; [unfold is_digit; now rewrite Hc|].
  apply orb_prop in Hc as [Hc|Hc].
  - apply andb_prop in Hc as [H1 H2]. apply Z.leb_le in H1, H2.
    destruct Hne. apply byte_val_inj. lia.
  - apply andb_prop in Hc as [H1 H2]. apply Z.leb_le in H1, H2.
    assert (c = "."%char) as -> by (apply byte_val_inj; lia). reflexivity.
Qed.

Lemma transfer_rate_bytes (line n1 n2 n3 : string) :
  regexp.FindStringSubmatch statsTransferRe line = [line; n1; n2; n3] ->
  all_bytes is_digit_or_dot (strings.ReplaceAll n3 "," "") = true.
Proof.
  unfold regexp.FindStringSubmatch. intros H.
  destruct (regexp.match_nodes statsTransferRe line) as [caps|] eqn:Hm;
    [|discriminate H].
  injection H as ->. apply statsTransferRe_sound in Hm as (_ & _ & _ & _ & H3).
  now apply ReplaceAll_digits_commas_dots.
Qed.

Lemma decimal_acc_ge (s : string) (n : Z) :
  all_bytes is_digit s = true -> 0 <= n -> n <= decimal_acc n s.
Proof.
  revert n. induction s as [|c s IH]; intros n H Hn; [cbn; lia|].
  cbn [all_bytes] in H. apply andb_prop in H as [Hc Hs].
  pose proof (is_digit_bounds _ Hc). cbn [decimal_acc].
  specialize (IH (n * 10 + (byte_val c - byte_val "0")) Hs). lia.
Qed.

(** On digits whose value fits uint64, the loop of [ParseUint] in base 10
    computes that value, with or without the underscores of base 0. *)
Lemma ParseUint_loop_decimal (s0 : string) (base0 : bool) (s : string) (n : Z) :
  all_bytes is_digit s = true ->
  0 <= n -> decimal_acc n s <= strconv.maxUint64 ->
  strconv.ParseUint_loop s0 base0 10 (strconv.maxUint64 / 10 + 1)
                         (2 ^ 64 - 1) n false s
  = (decimal_acc n s, None).
Proof.
  revert n. induction s as [|c s IH]; intros n H Hn Hmax; [reflexivity|].
  cbn [all_bytes] in H. apply andb_prop in H as [Hc Hs].
  pose proof (is_digit_bounds _ Hc) as Hd.
  cbn [decimal_acc] in Hmax |- *.
  pose proof (decimal_acc_ge s (n * 10 + (byte_val c - byte_val "0")) Hs
                ltac:(lia)) as Hge.
  cbn [strconv.ParseUint_loop]. rewrite Hc.
  destruct (Ascii.eqb_spec c "_") as [->|_]; [discriminate Hc|].
  cbn [andb].
  change (strconv.maxUint64 / 10 + 1) with 1844674407370955162.
  change strconv.maxUint64 with 18446744073709551615 in Hmax.
  change (2 ^ 64) with 18446744073709551616.
  destruct (Z.geb_spec (byte_val c - byte_val "0") 10) as [?|_]; [lia|].
  destruct (Z.geb_spec n 1844674407370955162) as [?|_]; [lia|].
  rewrite (Z.mod_small (n * 10)) by lia.
  rewrite (Z.mod_small (n * 10 + _)) by lia.
  destruct (Z.ltb_spec (n * 10 + (byte_val c - byte_val "0")) (n * 10)) as [?|_];
    [lia|].
  destruct (Z.gtb_spec (n * 10 + (byte_val c - byte_val "0"))
                       (18446744073709551616 - 1)) as [?|_]; [lia|].
  cbn [orb]. apply IH; [exact Hs|lia|exact Hmax].
Qed.

(** In base 10 [ParseInt] gives a string of digits its decimal value,
    leading zeros or not, when that value fits int64. *)
Lemma ParseInt_base10_decimal (s : string) :
  s <> EmptyString -> all_bytes is_digit s = true ->
  decimal_value s <= int64.max_int ->
  strconv.ParseInt s 10 64 = (decimal_value s, None).
Proof.
  intros Hne H Hmax. destruct s as [|c rest]; [now destruct Hne|].
  pose proof H as H'. cbn [all_bytes] in H'. apply andb_prop in H' as [Hc _].
  pose proof (decimal_acc_ge _ 0 H ltac:(lia)) as Hge.
  change int64.max_int with 9223372036854775807 in Hmax.
  unfold strconv.ParseInt.
  destruct (Ascii.eqb_spec c "+") as [->|_]; [discriminate Hc|].
  destruct (Ascii.eqb_spec c "-") as [->|_]; [discriminate Hc|].
  unfold strconv.ParseUint.
  change ((2 <=? 10) && (10 <=? 36)) with true.
  change ((64 <? 0) || (64 >? 64)) with false.
  change (if 64 =? 0 then 64 else 64) with 64. cbv beta iota zeta.
  rewrite ParseUint_loop_decimal;
    [|exact H|lia|change strconv.maxUint64 with 18446744073709551615;
                  fold (decimal_value (String c rest)); lia].
  fold (decimal_value (String c rest)). cbv beta iota zeta. cbn [negb andb].
  change (2 ^ (64 - 1)) with 9223372036854775808.
  destruct (Z.geb_spec (decimal_value (String c rest)) 9223372036854775808) as [?|_];
    [lia|].
  rewrite wrap_in_range; [reflexivity|].
  unfold int64.in_range. change int64.min_int with (-9223372036854775808).
  change int64.max_int with 9223372036854775807. unfold decimal_value in *. lia.
Qed.

(** In base 0, the way [Parse] calls it, [ParseInt] gives a decimal
    numeral, which has no zero in front, its decimal value. *)
Lemma ParseInt_base0_decimal (s : string) :
  decimal_numeral s ->
  decimal_value s <= int64.max_int ->
  strconv.ParseInt s 0 64 = (decimal_value s, None).
Proof.
  intros [H Hlead] Hmax. destruct s as [|c rest]; [now destruct Hlead|].
  destruct (Ascii.eqb_spec c "0") as [->|Hc0].
  - rewrite (Hlead eq_refl). reflexivity.
  - pose proof H as H'. cbn [all_bytes] in H'. apply andb_prop in H' as [Hc _].
    pose proof (decimal_acc_ge _ 0 H ltac:(lia)) as Hge.
    change int64.max_int with 9223372036854775807 in Hmax.
    unfold strconv.ParseInt.
    destruct (Ascii.eqb_spec c "+") as [->|_]; [discriminate Hc|].
    destruct (Ascii.eqb_spec c "-") as [->|_]; [discriminate Hc|].
    unfold strconv.ParseUint.
    change ((2 <=? 0) && (0 <=? 36)) with false.
    change (0 =? 0) with true.
    change ((64 <? 0) || (64 >? 64)) with false.
    change (if 64 =? 0 then 64 else 64) with 64. cbv beta iota zeta.
    destruct (Ascii.eqb_spec c "0") as [->|_]; [now destruct Hc0|].
    rewrite ParseUint_loop_decimal;
      [|exact H|lia|change strconv.maxUint64 with 18446744073709551615;
                    fold (decimal_value (String c rest)); lia].
    fold (decimal_value (String c rest)). cbv beta iota zeta. cbn [negb andb].
    change (2 ^ (64 - 1)) with 9223372036854775808.
    destruct (Z.geb_spec (decimal_value (String c rest)) 9223372036854775808)
      as [?|_]; [lia|].
    rewrite wrap_in_range; [reflexivity|].
    unfold int64.in_range. change int64.min_int with (-9223372036854775808).
    change int64.max_int with 9223372036854775807. unfold decimal_value in *. lia.
Qed.

(** A number printed in groups of digits with commas between them is
    stored as the decimal value of the digits, however many the groups. *)
Lemma ReplaceAll_groups (groups : list string) :
  Forall (fun g => all_bytes is_digit g = true) groups ->
  strings.ReplaceAll (String.concat "," groups) "," "" = String.concat "" groups.
Proof.
  induction 1 as [|g groups Hg Hgs IH]; [reflexivity|].
  cbn [String.concat]. destruct groups as [|g' groups].
  - now apply ReplaceAll_digits.
  - rewrite !ReplaceAll_app, (ReplaceAll_digits _ Hg), IH. reflexivity.
Qed.

Lemma ParseInt_groups (groups : list string) :
  Forall (fun g => all_bytes is_digit g = true) groups ->
  decimal_numeral (String.concat "" groups) ->
  decimal_value (String.concat "" groups) <= int64.max_int ->
  strconv.ParseInt (strings.ReplaceAll (String.concat "," groups) "," "") 0 64 =
  (decimal_value (String.concat "" groups), None).
Proof.
  intros Hg Hn Hmax. rewrite (ReplaceAll_groups _ Hg).
  now apply ParseInt_base0_decimal.
Qed.

(** A line of the shape of the transfer-totals pattern whose two counts
    are decimal numerals within int64 once the commas are gone, and whose
    rate converts, is well-formed, with the decimal values of the counts. *)
Lemma transfer_line_of_numerals (n1 n2 n3 : string) (bps : float64.t) :
  class_string digits_commas n1 -> class_string digits_commas n2 ->
  class_string digits_commas_dots n3 ->
  decimal_numeral (strings.ReplaceAll n1 "," "") ->
  decimal_numeral (strings.ReplaceAll n2 "," "") ->
  decimal_value (strings.ReplaceAll n1 "," "") <= int64.max_int ->
  decimal_value (strings.ReplaceAll n2 "," "") <= int64.max_int ->
  strconv.ParseFloat (strings.ReplaceAll n3 "," "") = (bps, None) ->
  transfer_line
    ("sent " ++ n1 ++ " bytes  received " ++ n2 ++ " bytes  " ++ n3 ++ " bytes/sec")
    (decimal_value (strings.ReplaceAll n1 "," ""))
    (decimal_value (strings.ReplaceAll n2 "," "")) bps.
Proof.
  intros H1 H2 H3 Hd1 Hd2 Hm1 Hm2 Hf. exists n1, n2, n3. repeat split.
  - unfold regexp.FindStringSubmatch.
    now rewrite (statsTransferRe_complete _ _ _ H1 H2 H3).
  - now apply ParseInt_base0_decimal.
  - now apply ParseInt_base0_decimal.
  - exact Hf.
Qed.

Lemma size_line_of_numeral (n4 n5 : string) :
  class_string digits_commas n4 -> class_string digits_commas_dots n5 ->
  decimal_numeral (strings.ReplaceAll n4 "," "") ->
  decimal_value (strings.ReplaceAll n4 "," "") <= int64.max_int ->
  size_line ("total size is " ++ n4 ++ "  speedup is " ++ n5)
            (decimal_value (strings.ReplaceAll n4 "," "")).
Proof.
  intros H4 H5 Hd Hm. exists n4, n5. split.
  - unfold regexp.FindStringSubmatch.
    now rewrite (statsSizeRe_complete _ _ H4 H5).
  - now apply ParseInt_base0_decimal.
Qed.

(** The speedup printed on a total-size line has no part in the record:
    whatever it is, the loop stores the size and nothing else. *)
Lemma Parse_line_size_ignores_speedup (p : Stats) (n4 n5 n5' : string) :
  class_string digits_commas n4 ->
  class_string digits_commas_dots n5 -> class_string digits_commas_dots n5' ->
  Parse_line p ("total size is " ++ n4 ++ "  speedup is " ++ n5) =
  Parse_line p ("total size is " ++ n4 ++ "  speedup is " ++ n5').
Proof.
  intros H4 H5 H5'.
  assert (Hsent : forall x, strings.HasPrefix ("total size is " ++ x) "sent " = false)
    by reflexivity.
  assert (Hsize : forall x,
             strings.HasPrefix ("total size is " ++ x) "total size is " = true)
    by (intros x; exact (strip_literal_prefix _ _ _ (strip_literal_app _ x))).
  unfold Parse_line, regexp.FindStringSubmatch.
  rewrite !Hsent, !Hsize.
  rewrite (statsSizeRe_complete _ _ H4 H5), (statsSizeRe_complete _ _ H4 H5').
  reflexivity.
Qed.

(** ** Both recognized lines *)

Lemma decimal_acc_app (a b : string) (n : Z) :
  decimal_acc n (a ++ b) = decimal_acc (decimal_acc n a) b.
Proof.
  revert n. induction a as [|c a IH]; intros n; [reflexivity|].
  cbn [append decimal_acc]. apply IH.
Qed.

(** The loop of [ParseFloat] over a run of digits. *)
Lemma readFloat_loop_digits (sawdot sawdigits : bool) (m : Z) (k : nat)
      (ds rest : string) :
  all_bytes is_digit ds = true ->
  strconv.readFloat_loop sawdot sawdigits m k (ds ++ rest) =
  strconv.readFloat_loop sawdot
    (match ds with EmptyString => sawdigits | _ => true end)
    (decimal_acc m ds)
    (if sawdot then (k + String.length ds)%nat else k) rest.
Proof.
  revert sawdigits m k. induction ds as [|c ds IH]; intros sawdigits m k H.
  - cbn [append decimal_acc String.length]. rewrite Nat.add_0_r.
    now destruct sawdot.
  - cbn [all_bytes] in H. apply andb_prop in H as [Hc Hds].
    cbn [append strconv.readFloat_loop decimal_acc String.length].
    destruct (Ascii.eqb_spec c ".") as [->|_]; [discriminate Hc|].
    rewrite Hc, (IH _ _ _ Hds).
    destruct sawdot; [rewrite Nat.add_succ_r|]; now destruct ds.
Qed.

(** [ParseFloat] on digits with at most one point and a digit on one side
    at least: the float64 nearest to the decimal number, when that is not
    an infinity. *)
Lemma ParseFloat_decimal (s ip fp : string) :
  all_bytes is_digit ip = true -> all_bytes is_digit fp = true ->
  ip ++ fp <> EmptyString ->
  s = ip ++ "." ++ fp \/ (s = ip /\ fp = EmptyString) ->
  finite_float (float64.of_decimal (decimal_value (ip ++ fp)) (String.length fp)) ->
  strconv.ParseFloat s =
  (float64.of_decimal (decimal_value (ip ++ fp)) (String.length fp), None).
Proof.
  intros Hip Hfp Hne Hs Hfin.
  assert (Hread : strconv.readFloat_loop false false 0 0 s =
                  Some (decimal_value (ip ++ fp), String.length fp)).
  { unfold decimal_value. rewrite decimal_acc_app.
    destruct Hs as [-> | [-> ->]].
    - rewrite (readFloat_loop_digits _ _ _ _ _ _ Hip).
      cbn [append strconv.readFloat_loop Ascii.eqb Bool.eqb].
      rewrite <- (append_nil_r fp) at 1.
      rewrite (readFloat_loop_digits _ _ _ _ _ _ Hfp).
      cbn [strconv.readFloat_loop Nat.add].
      destruct ip; destruct fp; try reflexivity. now destruct Hne.
    - rewrite <- (append_nil_r ip) at 1.
      rewrite (readFloat_loop_digits _ _ _ _ _ _ Hip).
      cbn [strconv.readFloat_loop decimal_acc String.length].
      destruct ip; [now destruct Hne|reflexivity]. }
  unfold strconv.ParseFloat. rewrite Hread.
  destruct (float64.of_decimal _ _); try reflexivity. destruct Hfin.
Qed.

(** A line of the transfer-totals shape with two counts and a rate as
    rsync prints them is well-formed for the code, with the numbers they
    stand for. *)
Lemma transfer_line_of_decimal (n1 n2 n3 : string) (w rd : Z) (bps : float64.t) :
  decimal_count n1 w -> decimal_count n2 rd -> decimal_rate n3 bps ->
  transfer_line (transfer_shape n1 n2 n3) w rd bps.
Proof.
  intros (H1 & Hd1 & -> & Hm1) (H2 & Hd2 & -> & Hm2)
         (H3 & ip & fp & Hip & Hfp & Hne & Hs & -> & Hfin).
  apply (transfer_line_of_numerals _ _ _ _ H1 H2 H3 Hd1 Hd2 Hm1 Hm2).
  now apply ParseFloat_decimal.
Qed.

Lemma size_line_of_decimal (n4 n5 : string) (sz : Z) :
  decimal_count n4 sz -> class_string digits_commas_dots n5 ->
  size_line (size_shape n4 n5) sz.
Proof.
  intros (H4 & Hd4 & -> & Hm4) H5.
  exact (size_line_of_numeral _ _ H4 H5 Hd4 Hm4).
Qed.

(** C8, as the code has it.  The input has one transfer-totals line and
    one total-size line of the documented shapes, in either order, with any
    unrecognized lines before, between and after them.  The three counts are
    decimal numerals with no zero in front and within int64, commas wherever
    they stand; the rate is digits with at most one point, within the range
    of float64.  Every line takes fewer than 65536 bytes up to its newline,
    a carriage return before the newline counted.  Then [Parse] returns
    without error one record with [Found] true, the decimal values of the
    three counts and the float64 nearest to the rate; the record is the same
    in both orders. *)
Theorem Parse_both_lines_either_order
        (data1 data2 : string) (us1 us2 us3 : list string)
        (n1 n2 n3 n4 n5 : string) (w rd sz : Z) (bps : float64.t) :
  decimal_count n1 w -> decimal_count n2 rd -> decimal_rate n3 bps ->
  decimal_count n4 sz -> class_string digits_commas_dots n5 ->
  Forall unrecognized us1 -> Forall unrecognized us2 -> Forall unrecognized us3 ->
  Forall (fun seg => bufio.fits seg = true) (bufio.segments data1) ->
  Forall (fun seg => bufio.fits seg = true) (bufio.segments data2) ->
  lines data1 =
    (us1 ++ transfer_shape n1 n2 n3 :: us2 ++ size_shape n4 n5 :: us3)%list ->
  lines data2 =
    (us1 ++ size_shape n4 n5 :: us2 ++ transfer_shape n1 n2 n3 :: us3)%list ->
  Parse (text data1) =
    Returned (Some {| Found := true; TotalWritten := w; TotalRead := rd;
                      BytesPerSec := bps; TotalSize := sz |}, None) /\
  Parse (text data2) = Parse (text data1).
Proof.
  intros Hn1 Hn2 Hn3 Hn4 Hn5 H1 H2 H3 Hf1 Hf2 Hl1 Hl2.
  pose proof (transfer_line_of_decimal _ _ _ _ _ _ Hn1 Hn2 Hn3) as Ht.
  pose proof (size_line_of_decimal _ _ _ Hn4 Hn5) as Hs.
  set (t := transfer_shape n1 n2 n3) in *. set (s := size_shape n4 n5) in *.
  assert (Hr1 : input_lines (text data1) (us1 ++ t :: us2 ++ s :: us3))
    by now repeat split.
  assert (Hr2 : input_lines (text data2) (us1 ++ s :: us2 ++ t :: us3))
    by now repeat split.
  assert (Hr1' : Parse (text data1) =
                 Returned (Some {| Found := true; TotalWritten := w;
                     TotalRead := rd; BytesPerSec := bps; TotalSize := sz |}, None)).
  { rewrite (Parse_loop_done _ {| Found := true; TotalWritten := w;
                 TotalRead := rd; BytesPerSec := bps; TotalSize := sz |});
      rewrite (NewScanner_input_lines _ _ Hr1); [reflexivity|].
    cbn [bufio.tokens].
    rewrite Parse_loop_app, (Parse_loop_unrecognized _ _ H1). cbn [bind Parse_loop].
    rewrite (Parse_line_transfer _ _ _ _ _ Ht). cbn [bind].
    rewrite Parse_loop_app, (Parse_loop_unrecognized _ _ H2). cbn [bind Parse_loop].
    rewrite (Parse_line_size _ _ _ Hs). cbn [bind].
    now rewrite (Parse_loop_unrecognized _ _ H3). }
  split; [exact Hr1'|]. rewrite Hr1'.
  rewrite (Parse_loop_done _ {| Found := true; TotalWritten := w;
               TotalRead := rd; BytesPerSec := bps; TotalSize := sz |});
    rewrite (NewScanner_input_lines _ _ Hr2); [reflexivity|].
  cbn [bufio.tokens].
  rewrite Parse_loop_app, (Parse_loop_unrecognized _ _ H1). cbn [bind Parse_loop].
  rewrite (Parse_line_size _ _ _ Hs). cbn [bind].
  rewrite Parse_loop_app, (Parse_loop_unrecognized _ _ H2). cbn [bind Parse_loop].
  rewrite (Parse_line_transfer _ _ _ _ _ Ht). cbn [bind].
  now rewrite (Parse_loop_unrecognized _ _ H3).
Qed.

Lemma Parse_both_lines_either_order_witness :
  let us1 := ["receiving incremental file list"; "./"] in
  let us2 := [""] in
  let us3 := ["done"] in
  let data1 := "receiving incremental file list" ++ nl ++ "./" ++ nl ++
               example_transfer_line ++ String "013" nl ++ nl ++
               example_size_line ++ nl ++ "done" ++ nl in
  let data2 := "receiving incremental file list" ++ nl ++ "./" ++ nl ++
               example_size_line ++ nl ++ nl ++
               example_transfer_line ++ nl ++ "done" in
  decimal_count "1,590" 1590 /\ decimal_count "18" 18 /\
  decimal_rate "3,216.00" (float64.of_int 3216) /\
  decimal_count "1,188,046" 1188046 /\
  class_string digits_commas_dots "738.83" /\
  Forall unrecognized us1 /\ Forall unrecognized us2 /\ Forall unrecognized us3 /\
  Forall (fun seg => bufio.fits seg = true) (bufio.segments data1) /\
  Forall (fun seg => bufio.fits seg = true) (bufio.segments data2) /\
  lines data1 =
    (us1 ++ transfer_shape "1,590" "18" "3,216.00" ::
     us2 ++ size_shape "1,188,046" "738.83" :: us3)%list /\
  lines data2 =
    (us1 ++ size_shape "1,188,046" "738.83" ::
     us2 ++ transfer_shape "1,590" "18" "3,216.00" :: us3)%list /\
  Parse (text data1) = Returned (Some example_stats, None) /\
  Parse (text data2) = Parse (text data1).
Proof.
  cbv zeta.
  assert (Hn1 : decimal_count "1,590" 1590).
  { repeat split; try reflexivity; try discriminate. }
  assert (Hn2 : decimal_count "18" 18).
  { repeat split; try reflexivity; try discriminate. }
  assert (Hn3 : decimal_rate "3,216.00" (float64.of_int 3216)).
  { split; [split; [discriminate|reflexivity]|].
    exists "3216", "00". repeat split; try reflexivity; try discriminate.
    left. reflexivity. }
  assert (Hn4 : decimal_count "1,188,046" 1188046).
  { repeat split; try reflexivity; try discriminate. }
  assert (Hn5 : class_string digits_commas_dots "738.83").
  { split; [discriminate|reflexivity]. }
  assert (H1 : Forall unrecognized ["receiving incremental file list"; "./"]).
  { repeat constructor. }
  assert (H2 : Forall unrecognized [""]).
  { repeat constructor. }
  assert (H3 : Forall unrecognized ["done"]).
  { repeat constructor. }
  match goal with
  | |- _ /\ _ /\ _ /\ _ /\ _ /\ _ /\ _ /\ _ /\ Forall _ (bufio.segments ?d1) /\
       Forall _ (bufio.segments ?d2) /\ lines _ = ?l1 /\ lines _ = ?l2 /\ _ =>
      assert (Hf1 : Forall (fun seg => bufio.fits seg = true) (bufio.segments d1))
        by repeat constructor;
      assert (Hf2 : Forall (fun seg => bufio.fits seg = true) (bufio.segments d2))
        by repeat constructor;
      assert (Hl1 : lines d1 = l1) by reflexivity;
      assert (Hl2 : lines d2 = l2) by reflexivity
  end.
  repeat (split; [assumption|]).
  exact (Parse_both_lines_either_order _ _ _ _ _ _ _ _ _ _ _ _ _ _
           Hn1 Hn2 Hn3 Hn4 Hn5 H1 H2 H3 Hf1 Hf2 Hl1 Hl2).
Defined.

(** C8, as stated, fails: between the two lines of the documentation's
    example, whose numbers are as above, an unrecognized line of 100000
    bytes makes [Parse] return the scanner's [ErrTooLong] and no record. *)
Lemma Parse_both_lines_long_line_fails :
  let data := example_transfer_line ++ nl ++ long_line ++ nl ++
              example_size_line ++ nl in
  decimal_count "1,590" 1590 /\ decimal_count "18" 18 /\
  decimal_rate "3,216.00" (float64.of_int 3216) /\
  decimal_count "1,188,046" 1188046 /\
  class_string digits_commas_dots "738.83" /\
  unrecognized long_line /\
  lines data = [transfer_shape "1,590" "18" "3,216.00"; long_line;
                size_shape "1,188,046" "738.83"] /\
  Parse (text data) = Returned (None, Some ErrTooLong).
Proof.
  cbv zeta.
  assert (Hn1 : decimal_count "1,590" 1590).
  { repeat split; try reflexivity; try discriminate. }
  assert (Hn2 : decimal_count "18" 18).
  { repeat split; try reflexivity; try discriminate. }
  assert (Hn3 : decimal_rate "3,216.00" (float64.of_int 3216)).
  { split; [split; [discriminate|reflexivity]|].
    exists "3216", "00". repeat split; try reflexivity; try discriminate.
    left. reflexivity. }
  assert (Hn4 : decimal_count "1,188,046" 1188046).
  { repeat split; try reflexivity; try discriminate. }
  assert (Hn5 : class_string digits_commas_dots "738.83").
  { split; [discriminate|reflexivity]. }
  pose proof (transfer_line_of_decimal _ _ _ _ _ _ Hn1 Hn2 Hn3) as Ht.
  assert (Hsegs : bufio.segments (example_transfer_line ++ nl ++ long_line ++ nl ++
                                  example_size_line ++ nl) =
                  [example_transfer_line; long_line; example_size_line; ""]).
  { rewrite segments_line by reflexivity.
    rewrite (segments_line _ _ long_line_not_newline).
    rewrite <- (append_nil_r nl) at 1.
    rewrite segments_line by reflexivity. reflexivity. }
  repeat (split; [assumption|]).
  split; [exact long_line_unrecognized|]. split.
  - unfold lines. rewrite Hsegs. cbn [lines_of_segments].
    rewrite long_line_dropCR. reflexivity.
  - unfold Parse, bufio.NewScanner, text. cbn [bufio.r_data bufio.r_err].
    rewrite Hsegs. cbn [bufio.scan].
    change (bufio.fits example_transfer_line) with true. cbv iota.
    rewrite long_line_fits.
    cbn [bufio.tokens bufio.err bufio.Err Parse_loop].
    change (bufio.dropCR example_transfer_line) with example_transfer_line.
    rewrite (Parse_line_transfer _ _ _ _ _ Ht). reflexivity.
Qed.

(** * Further properties of the package *)

(** ** What the two patterns match *)

Lemma statsTransferRe_captures (line : string) (caps : list string) :
  regexp.match_nodes statsTransferRe line = Some caps ->
  exists n1 n2 n3, caps = [n1; n2; n3].
Proof.
  unfold statsTransferRe. cbn [regexp.match_nodes]. intros H.
  destruct (regexp.strip_literal "sent " line) as [s1|]; [|discriminate H].
  apply match_plus_sound in H as (r1 & s2 & c1 & _ & _ & H & ->).
  destruct (regexp.strip_literal " bytes  received " s2) as [s3|]; [|discriminate H].
  apply match_plus_sound in H as (r2 & s4 & c2 & _ & _ & H & ->).
  destruct (regexp.strip_literal " bytes  " s4) as [s5|]; [|discriminate H].
  apply match_plus_sound in H as (r3 & s6 & c3 & _ & _ & H & ->).
  destruct (regexp.strip_literal " bytes/sec" s6) as [s7|]; [|discriminate H].
  destruct s7; [|discriminate H]. injection H as <-. eauto.
Qed.

Lemma statsSizeRe_captures (line : string) (caps : list string) :
  regexp.match_nodes statsSizeRe line = Some caps ->
  exists n4 n5, caps = [n4; n5].
Proof.
  unfold statsSizeRe. cbn [regexp.match_nodes]. intros H.
  destruct (regexp.strip_literal "total size is " line) as [s1|]; [|discriminate H].
  apply match_plus_sound in H as (r1 & s2 & c1 & _ & _ & H & ->).
  destruct (regexp.strip_literal "  speedup is " s2) as [s3|]; [|discriminate H].
  apply match_plus_sound in H as (r2 & s4 & c2 & _ & _ & H & ->).
  destruct s4; [|discriminate H]. injection H as <-. eauto.
Qed.

(** X1: [statsTransferRe] matches a line exactly when the line is
    [sent N1 bytes  received N2 bytes  N3 bytes/sec] with [N1] and [N2] not
    empty and made of digits and commas and [N3] not empty and made of
    digits, commas and points; the submatches are then the line, [N1], [N2]
    and [N3], and on any other line [FindStringSubmatch] gives nil. *)
Theorem statsTransferRe_matches :
  (forall line n1 n2 n3 : string,
      regexp.FindStringSubmatch statsTransferRe line = [line; n1; n2; n3] <->
      line = transfer_shape n1 n2 n3 /\
      class_string digits_commas n1 /\ class_string digits_commas n2 /\
      class_string digits_commas_dots n3) /\
  (forall line : string,
      regexp.FindStringSubmatch statsTransferRe line = [] \/
      exists n1 n2 n3,
        regexp.FindStringSubmatch statsTransferRe line = [line; n1; n2; n3]).
Proof.
  split.
  - intros line n1 n2 n3. unfold regexp.FindStringSubmatch, transfer_shape. split.
    + destruct (regexp.match_nodes statsTransferRe line) as [caps|] eqn:Hm;
        [|discriminate].
      intros H. injection H as ->. now apply statsTransferRe_sound.
    + intros (-> & H1 & H2 & H3).
      now rewrite (statsTransferRe_complete _ _ _ H1 H2 H3).
  - intros line. unfold regexp.FindStringSubmatch.
    destruct (regexp.match_nodes statsTransferRe line) as [caps|] eqn:Hm;
      [|now left].
    right. destruct (statsTransferRe_captures _ _ Hm) as (n1 & n2 & n3 & ->). eauto.
Qed.

(** X2: [statsSizeRe] matches a line exactly when the line is
    [total size is N4  speedup is N5] with [N4] not empty and made of digits
    and commas and [N5] not empty and made of digits, commas and points; the
    submatches are then the line, [N4] and [N5], and on any other line
    [FindStringSubmatch] gives nil. *)
Theorem statsSizeRe_matches :
  (forall line n4 n5 : string,
      regexp.FindStringSubmatch statsSizeRe line = [line; n4; n5] <->
      line = size_shape n4 n5 /\
      class_string digits_commas n4 /\ class_string digits_commas_dots n5) /\
  (forall line : string,
      regexp.FindStringSubmatch statsSizeRe line = [] \/
      exists n4 n5, regexp.FindStringSubmatch statsSizeRe line = [line; n4; n5]).
Proof.
  split.
  - intros line n4 n5. unfold regexp.FindStringSubmatch, size_shape. split.
    + destruct (regexp.match_nodes statsSizeRe line) as [caps|] eqn:Hm;
        [|discriminate].
      intros H. injection H as ->. now apply statsSizeRe_sound.
    + intros (-> & H4 & H5). now rewrite (statsSizeRe_complete _ _ H4 H5).
  - intros line. unfold regexp.FindStringSubmatch.
    destruct (regexp.match_nodes statsSizeRe line) as [caps|] eqn:Hm; [|now left].
    right. destruct (statsSizeRe_captures _ _ Hm) as (n4 & n5 & ->). eauto.
Qed.

(** ** What a conversion can give *)

Lemma ParseUint_loop_nonneg (s0 : string) (base0 : bool) (base cutoff maxVal : Z)
      (s : string) (n : Z) (u : bool) (v : Z) (e : option error) :
  strconv.ParseUint_loop s0 base0 base cutoff maxVal n u s = (v, e) ->
  0 <= n -> 0 <= maxVal -> 0 <= v.
Proof.
  revert n u. induction s as [|c s IH]; intros n u H Hn Hmax.
  - cbn [strconv.ParseUint_loop] in H.
    destruct (u && negb (strconv.underscoreOK s0)); injection H as <- _; lia.
  - cbn [strconv.ParseUint_loop] in H.
    destruct (Ascii.eqb c "_" && base0); [exact (IH _ _ H Hn Hmax)|].
    destruct (if is_digit c then Some (byte_val c - byte_val "0")
              else if (byte_val "a" <=? strconv.lower c)
                      && (strconv.lower c <=? byte_val "z")
                   then Some (strconv.lower c - byte_val "a" + 10) else None)
      as [d|]; [|injection H as <- _; lia].
    destruct (d >=? base); [injection H as <- _; lia|].
    destruct (n >=? cutoff); [injection H as <- _; lia|].
    destruct (_ || _); [injection H as <- _; lia|].
    refine (IH _ _ H _ Hmax). apply Z.mod_pos_bound. lia.
Qed.

Lemma ParseUint_nonneg (s : string) (base : Z) (v : Z) (e : option error) :
  strconv.ParseUint s base 64 = (v, e) -> 0 <= v.
Proof.
  unfold strconv.ParseUint. destruct s as [|c0 rest]; [intros H; injection H as <- _; lia|].
  change ((64 <? 0) || (64 >? 64)) with false.
  change (if 64 =? 0 then 64 else 64) with 64. cbv beta iota zeta.
  destruct (if (2 <=? base) && (base <=? 36) then _ else _) as [[b s']|];
    [|intros H; injection H as <- _; lia].
  intros H. apply ParseUint_loop_nonneg in H; lia.
Qed.

(** A successful [ParseInt] at bit size 64 gives a number within int64,
    and not a negative one when the string has no minus sign in front. *)
Lemma ParseInt_ok_range (s : string) (base v : Z) :
  strconv.ParseInt s base 64 = (v, None) ->
  int64.in_range v /\
  (strings.HasPrefix s "-" = false -> count_ok v).
Proof.
  unfold strconv.ParseInt. destruct s as [|c0 rest]; [discriminate|].
  assert (Hpre : strings.HasPrefix (String c0 rest) "-" = Ascii.eqb "-" c0).
  { unfold strings.HasPrefix. cbn [String.prefix].
    destruct (ascii_dec "-" c0) as [<-|Hne].
    - rewrite Ascii.eqb_refl. now destruct rest.
    - symmetry. now apply Ascii.eqb_neq. }
  rewrite Hpre, (Ascii.eqb_sym "-"). clear Hpre.
  destruct (Ascii.eqb c0 "+") eqn:Eplus;
    [assert (Eminus : Ascii.eqb c0 "-" = false)
       by (apply Ascii.eqb_eq in Eplus; now subst); rewrite Eminus|];
    cbv beta iota zeta.
  1: destruct (strconv.ParseUint rest base 64) as [un err] eqn:HU.
  2: destruct (Ascii.eqb c0 "-") eqn:Eminus; cbv beta iota zeta;
     [destruct (strconv.ParseUint rest base 64) as [un err] eqn:HU
     |destruct (strconv.ParseUint (String c0 rest) base 64) as [un err] eqn:HU].
  all: pose proof (ParseUint_nonneg _ _ _ _ HU) as Hun;
    change (if 64 =? 0 then 64 else 64) with 64;
    change (2 ^ (64 - 1)) with 9223372036854775808;
    unfold int64.in_range, count_ok;
    change int64.min_int with (-9223372036854775808);
    change int64.max_int with 9223372036854775807;
    cbn [negb andb];
    destruct err as [[| | |f nm [| | |]]|]; try discriminate.
  all: try (destruct (Z.geb_spec un 9223372036854775808) as [Hge|Hge]; [discriminate|]).
  all: try (destruct (Z.gtb_spec un 9223372036854775808) as [Hgt|Hgt]; [discriminate|]).
  all: intros H; injection H as <-.
  all: unfold int64.wrap;
    change (2 ^ 63) with 9223372036854775808;
    change (2 ^ 64) with 18446744073709551616.
  all: try (rewrite Z.mod_small by lia; split; [lia|]; intros; try discriminate; lia).
Qed.

Lemma iter_pos_invariant {A : Type} (P : A -> Prop) (f : A -> A) :
  (forall x, P x -> P (f x)) -> forall (n : positive) (x : A), P x -> P (iter_pos f n x).
Proof.
  intros Hf. induction n as [n IH|n IH|]; intros x Hx; cbn [iter_pos]; auto.
Qed.

Lemma shr_1_nonneg (mrs : shr_record) : 0 <= shr_m mrs -> 0 <= shr_m (shr_1 mrs).
Proof.
  destruct mrs as [m r s]. cbn [shr_m]. intros Hm.
  destruct m as [|[p|p|]|p]; cbn; lia.
Qed.

Lemma shr_fexp_nonneg (m e : Z) (l : location) :
  0 <= m -> 0 <= shr_m (fst (shr_fexp float64.prec float64.emax m e l)).
Proof.
  intros Hm. unfold shr_fexp, shr.
  assert (H0 : 0 <= shr_m (shr_record_of_loc m l)) by (now destruct l as [|[]]).
  destruct (_ - e) as [|n|n]; cbn [fst]; [exact H0| |exact H0].
  now apply (iter_pos_invariant (fun mrs => 0 <= shr_m mrs) shr_1 shr_1_nonneg).
Qed.

Lemma round_nearest_even_nonneg (m : Z) (l : location) :
  0 <= m -> 0 <= round_nearest_even m l.
Proof.
  intros Hm. destruct l as [|[]]; cbn [round_nearest_even]; try lia.
  destruct (Z.even m); lia.
Qed.

(** Rounding a mantissa that is not negative gives no NaN. *)
Lemma binary_round_aux_not_nan (m e : Z) (l : location) :
  0 <= m ->
  match binary_round_aux float64.prec float64.emax false m e l with
  | S754_zero sg | S754_infinity sg | S754_finite sg _ _ => sg = false
  | S754_nan => False
  end.
Proof.
  intros Hm. unfold binary_round_aux.
  pose proof (shr_fexp_nonneg m e l Hm) as H1.
  destruct (shr_fexp float64.prec float64.emax m e l) as [mrs' e'].
  cbn [fst] in H1.
  pose proof (shr_fexp_nonneg _ e' loc_Exact
                (round_nearest_even_nonneg _ (loc_of_shr_record mrs') H1)) as H2.
  destruct (shr_fexp float64.prec float64.emax _ e' loc_Exact) as [mrs'' e''].
  cbn [fst] in H2. destruct (shr_m mrs'') as [|p|p]; [reflexivity| |lia].
  now destruct (e'' <=? float64.emax - float64.prec).
Qed.

Lemma of_decimal_not_nan (m : Z) (k : nat) :
  match float64.of_decimal m k with
  | S754_zero sg | S754_infinity sg | S754_finite sg _ _ => sg = false
  | S754_nan => False
  end.
Proof.
  unfold float64.of_decimal. destruct m as [|p|p]; [reflexivity| |reflexivity].
  unfold SFdiv, SFdiv_core_binary. cbn [xorb].
  set (q := Z.to_pos (10 ^ Z.of_nat k)).
  match goal with
  | |- context [Z.div_eucl ?a (Z.pos q)] =>
      pose proof (Z_div_mod a (Z.pos q) ltac:(lia)) as Hdm;
      assert (Ha : 0 <= a);
      [|destruct (Z.div_eucl a (Z.pos q)) as [qq rr]]
  end.
  - match goal with
    | |- 0 <= match ?s with _ => _ end => destruct s; [lia| |lia]
    end.
    apply Z.shiftl_nonneg. lia.
  - apply binary_round_aux_not_nan. destruct Hdm as [Hdm Hr]. nia.
Qed.

(** A successful [ParseFloat] gives zero or a positive finite float64. *)
Lemma ParseFloat_ok_rate (s : string) (f : float64.t) :
  strconv.ParseFloat s = (f, None) -> rate_ok f.
Proof.
  unfold strconv.ParseFloat.
  destruct (strconv.readFloat_loop false false 0 0 s) as [[m k]|]; [|discriminate].
  pose proof (of_decimal_not_nan m k) as H.
  destruct (float64.of_decimal m k) as [sg|sg| |sg mm e]; try discriminate.
  - intros E. injection E as <-. left. now subst.
  - contradiction.
  - intros E. injection E as <-. right. subst. eauto.
Qed.

(** ** One line at a time *)

Lemma HasPrefix_app (l s : string) : strings.HasPrefix (l ++ s) l = true.
Proof. exact (strip_literal_prefix _ _ _ (strip_literal_app l s)). Qed.

Lemma Parse_line_transfer_shape (p : Stats) (n1 n2 n3 : string) :
  class_string digits_commas n1 -> class_string digits_commas n2 ->
  class_string digits_commas_dots n3 ->
  Parse_line p (transfer_shape n1 n2 n3) = Returned (store_transfer p n1 n2 n3).
Proof.
  intros H1 H2 H3. unfold Parse_line, regexp.FindStringSubmatch, transfer_shape.
  rewrite HasPrefix_app, (statsTransferRe_complete _ _ _ H1 H2 H3).
  cbn [List.length Nat.eqb index nth_error bind]. unfold store_transfer.
  destruct (strconv.ParseInt (strings.ReplaceAll n1 "," "") 0 64) as [w [e|]];
    [reflexivity|].
  destruct (strconv.ParseInt (strings.ReplaceAll n2 "," "") 0 64) as [rd [e|]];
    [reflexivity|].
  destruct (strconv.ParseFloat (strings.ReplaceAll n3 "," "")) as [bps [e|]];
    reflexivity.
Qed.

Lemma Parse_line_size_shape (p : Stats) (n4 n5 : string) :
  class_string digits_commas n4 -> class_string digits_commas_dots n5 ->
  Parse_line p (size_shape n4 n5) = Returned (store_size p n4).
Proof.
  intros H4 H5. unfold Parse_line, regexp.FindStringSubmatch, size_shape.
  assert (Hsent : strings.HasPrefix ("total size is " ++ n4 ++ "  speedup is " ++ n5)
                                    "sent " = false) by reflexivity.
  rewrite Hsent, HasPrefix_app, (statsSizeRe_complete _ _ H4 H5).
  cbn [index nth_error bind]. unfold store_size.
  destruct (strconv.ParseInt (strings.ReplaceAll n4 "," "") 0 64) as [sz [e|]];
    reflexivity.
Qed.

(** The five things the loop can do with a line. *)
Lemma Parse_line_outcome (p : Stats) (line : string) :
  (recognized line = false /\ Parse_line p line = Returned (Continue p)) \/
  (strings.HasPrefix line "sent " = true /\
   regexp.match_nodes statsTransferRe line = None /\
   Parse_line p line = Returned (Return (None, Some sent_error))) \/
  (exists n1 n2 n3,
      line = transfer_shape n1 n2 n3 /\
      class_string digits_commas n1 /\ class_string digits_commas n2 /\
      class_string digits_commas_dots n3 /\
      Parse_line p line = Returned (store_transfer p n1 n2 n3)) \/
  (strings.HasPrefix line "sent " = false /\
   strings.HasPrefix line "total size is " = true /\
   regexp.match_nodes statsSizeRe line = None /\
   Parse_line p line = Panicked (IndexOutOfRange 1 0)) \/
  (exists n4 n5,
      line = size_shape n4 n5 /\
      class_string digits_commas n4 /\ class_string digits_commas_dots n5 /\
      Parse_line p line = Returned (store_size p n4)).
Proof.
  destruct (strings.HasPrefix line "sent ") eqn:Hsent.
  - right. destruct (regexp.match_nodes statsTransferRe line) as [caps|] eqn:Hm.
    + right. left.
      destruct (statsTransferRe_captures _ _ Hm) as (n1 & n2 & n3 & ->).
      destruct (statsTransferRe_sound _ _ _ _ Hm) as (-> & H1 & H2 & H3).
      exists n1, n2, n3. repeat split; try apply H1; try apply H2; try apply H3.
      now apply Parse_line_transfer_shape.
    + left. repeat split. now apply Parse_line_sent_mismatch.
  - destruct (strings.HasPrefix line "total size is ") eqn:Hsize.
    + right. right. right.
      destruct (regexp.match_nodes statsSizeRe line) as [caps|] eqn:Hm.
      * right. destruct (statsSizeRe_captures _ _ Hm) as (n4 & n5 & ->).
        destruct (statsSizeRe_sound _ _ _ Hm) as (-> & H4 & H5).
        exists n4, n5. repeat split; try apply H4; try apply H5.
        now apply Parse_line_size_shape.
      * left. repeat split. now apply Parse_line_size_mismatch.
    + left. unfold recognized. rewrite Hsent, Hsize. split; [reflexivity|].
      apply Parse_line_unrecognized. now split.
Qed.

(** ** From the lines to the result *)

(** The scanner stops on the reader's own end only after every line. *)
Lemma scan_prefix (e : error) (segs : list string) :
  exists rest,
    lines_of_segments segs = (fst (bufio.scan e segs) ++ rest)%list /\
    (snd (bufio.scan e segs) = e /\ rest = [] \/
     snd (bufio.scan e segs) = ErrTooLong).
Proof.
  induction segs as [|seg segs IH]; [exists []; split; [reflexivity|now left]|].
  cbn [bufio.scan lines_of_segments]. destruct segs as [|seg' segs'].
  - destruct seg as [|c seg]; [exists []; split; [reflexivity|now left]|].
    destruct (bufio.fits (String c seg)).
    + exists []. split; [reflexivity|now left].
    + exists [bufio.dropCR (String c seg)]. split; [reflexivity|now right].
  - destruct IH as (rest & Hrest & Herr).
    destruct (bufio.fits seg).
    + destruct (bufio.scan e (seg' :: segs')) as [toks err].
      cbn [fst snd] in *. exists rest. split; [now rewrite Hrest|exact Herr].
    + exists (bufio.dropCR seg :: lines_of_segments (seg' :: segs')).
      split; [reflexivity|now right].
Qed.

(** When [Parse] returns a record, the loop has run over every line of
    the text and has not stopped. *)
Lemma Parse_text_record (data : string) (p : Stats) (e : option error) :
  Parse (text data) = Returned (Some p, e) ->
  e = None /\ Parse_loop Stats_zero (lines data) = Returned (Continue p).
Proof.
  unfold Parse, bufio.NewScanner, bufio.Err, text, lines.
  cbn [bufio.r_data bufio.r_err].
  destruct (scan_prefix EOF (bufio.segments data)) as (rest & Hrest & Herr).
  destruct (bufio.scan EOF (bufio.segments data)) as [toks err].
  cbn [fst snd bufio.tokens bufio.err] in *.
  destruct (Parse_loop Stats_zero toks) as [[p'|r']|pn] eqn:Hloop; cbn [bind].
  - destruct Herr as [[-> ->] | ->]; [|discriminate].
    intros H. injection H as <- <-. rewrite Hrest, app_nil_r. now split.
  - intros H. injection H as ->. exfalso. revert Hloop. clear.
    revert p. generalize Stats_zero.
    induction toks as [|line toks IH]; intros p0 p; [discriminate|].
    cbn [Parse_loop].
    destruct (Parse_line_outcome p0 line)
      as [[_ ->]|[(_ & _ & ->)|[(n1 & n2 & n3 & _ & _ & _ & _ & ->)
         |[(_ & _ & _ & ->)|(n4 & n5 & _ & _ & _ & ->)]]]]; cbn [bind].
    + apply IH.
    + discriminate.
    + unfold store_transfer.
      destruct (strconv.ParseInt _ 0 64) as [w [?|]]; [discriminate|].
      destruct (strconv.ParseInt _ 0 64) as [rd [?|]]; [discriminate|].
      destruct (strconv.ParseFloat _) as [bps [?|]]; [discriminate|]. apply IH.
    + discriminate.
    + unfold store_size.
      destruct (strconv.ParseInt _ 0 64) as [sz [?|]]; [discriminate|]. apply IH.
  - discriminate.
Qed.

Lemma Parse_loop_invariant (P : Stats -> Prop) :
  (forall p line p', P p -> Parse_line p line = Returned (Continue p') -> P p') ->
  forall ls p p', P p -> Parse_loop p ls = Returned (Continue p') -> P p'.
Proof.
  intros Hline. induction ls as [|line ls IH]; intros p p' Hp H.
  - injection H as <-. exact Hp.
  - cbn [Parse_loop] in H.
    destruct (Parse_line p line) as [[p1|r]|pn] eqn:Hl; cbn [bind] in H;
      try discriminate H.
    exact (IH _ _ (Hline _ _ _ Hp Hl) H).
Qed.

Lemma digits_no_minus (s : string) :
  all_bytes is_digit s = true -> strings.HasPrefix s "-" = false.
Proof.
  destruct s as [|c s]; [reflexivity|]. cbn [all_bytes]. intros H.
  apply andb_prop in H as [Hc _]. unfold strings.HasPrefix. cbn [String.prefix].
  destruct (ascii_dec "-" c) as [<-|_]; [discriminate Hc|reflexivity].
Qed.

Lemma ParseInt_capture_ok (n : string) (v : Z) :
  class_string digits_commas n ->
  strconv.ParseInt (strings.ReplaceAll n "," "") 0 64 = (v, None) -> count_ok v.
Proof.
  intros [_ Hn] H. apply ParseInt_ok_range in H as [_ H]. apply H.
  apply digits_no_minus. now apply ReplaceAll_digits_commas.
Qed.

Lemma Parse_line_stats_ok (p : Stats) (line : string) (p' : Stats) :
  stats_ok p -> Parse_line p line = Returned (Continue p') -> stats_ok p'.
Proof.
  intros (Hw & Hr & Hs & Hb).
  destruct (Parse_line_outcome p line)
    as [[_ ->]|[(_ & _ & ->)|[(n1 & n2 & n3 & _ & H1 & H2 & H3 & ->)
       |[(_ & _ & _ & ->)|(n4 & n5 & _ & H4 & H5 & ->)]]]];
    intros H; try discriminate H.
  - injection H as <-. exact (conj Hw (conj Hr (conj Hs Hb))).
  - unfold store_transfer in H.
    destruct (strconv.ParseInt (strings.ReplaceAll n1 "," "") 0 64)
      as [w [?|]] eqn:E1; [discriminate H|].
    destruct (strconv.ParseInt (strings.ReplaceAll n2 "," "") 0 64)
      as [rd [?|]] eqn:E2; [discriminate H|].
    destruct (strconv.ParseFloat (strings.ReplaceAll n3 "," ""))
      as [bps [?|]] eqn:E3; [discriminate H|].
    injection H as <-. unfold stats_ok. cbn.
    repeat split; try apply Hs.
    + exact (proj1 (ParseInt_capture_ok _ _ H1 E1)).
    + exact (proj2 (ParseInt_capture_ok _ _ H1 E1)).
    + exact (proj1 (ParseInt_capture_ok _ _ H2 E2)).
    + exact (proj2 (ParseInt_capture_ok _ _ H2 E2)).
    + exact (ParseFloat_ok_rate _ _ E3).
  - unfold store_size in H.
    destruct (strconv.ParseInt (strings.ReplaceAll n4 "," "") 0 64)
      as [sz [?|]] eqn:E4; [discriminate H|].
    injection H as <-. unfold stats_ok. cbn.
    repeat split; try apply Hw; try apply Hr; try exact Hb.
    + exact (proj1 (ParseInt_capture_ok _ _ H4 E4)).
    + exact (proj2 (ParseInt_capture_ok _ _ H4 E4)).
Qed.

Lemma Stats_zero_ok : stats_ok Stats_zero.
Proof.
  unfold stats_ok, count_ok, rate_ok. cbn. change int64.max_int with 9223372036854775807.
  repeat split; try lia. now left.
Qed.

Lemma Parse_loop_return_error (ls : list string) (p : Stats) (r : result) :
  Parse_loop p ls = Returned (Return r) -> exists e, r = (None, Some e).
Proof.
  revert p. induction ls as [|line ls IH]; intros p; [discriminate|].
  cbn [Parse_loop].
  destruct (Parse_line_outcome p line)
    as [[_ ->]|[(_ & _ & ->)|[(n1 & n2 & n3 & _ & _ & _ & _ & ->)
       |[(_ & _ & _ & ->)|(n4 & n5 & _ & _ & _ & ->)]]]]; cbn [bind].
  - apply IH.
  - intros H. injection H as <-. eauto.
  - unfold store_transfer.
    destruct (strconv.ParseInt _ 0 64) as [w [?|]];
      [intros H; injection H as <-; eauto|].
    destruct (strconv.ParseInt _ 0 64) as [rd [?|]];
      [intros H; injection H as <-; eauto|].
    destruct (strconv.ParseFloat _) as [bps [?|]];
      [intros H; injection H as <-; eauto|]. apply IH.
  - discriminate.
  - unfold store_size.
    destruct (strconv.ParseInt _ 0 64) as [sz [?|]];
      [intros H; injection H as <-; eauto|]. apply IH.
Qed.

(** When [Parse] returns a record, the loop has run over every token of
    the scanner without stopping, and the scanner has ended cleanly. *)
Lemma Parse_record (r : bufio.Reader) (p : Stats) (e : option error) :
  Parse r = Returned (Some p, e) ->
  e = None /\
  Parse_loop Stats_zero (bufio.tokens (bufio.NewScanner r)) = Returned (Continue p) /\
  bufio.err (bufio.NewScanner r) = EOF.
Proof.
  unfold Parse, bufio.Err.
  destruct (Parse_loop Stats_zero _) as [[p'|r']|pn] eqn:Hloop; cbn [bind].
  - destruct (bufio.err (bufio.NewScanner r)); try discriminate.
    intros H. injection H as <- <-. now repeat split.
  - destruct (Parse_loop_return_error _ _ _ Hloop) as [e' ->]. discriminate.
  - discriminate.
Qed.

(** ** The result of [Parse] *)

(** X3: whenever [Parse] returns, it returns either a record and a nil
    error or a nil record and an error: never both, never neither. *)
Theorem Parse_returns_record_xor_error (r : bufio.Reader) (res : result) :
  Parse r = Returned res ->
  (exists p, res = (Some p, None)) \/ (exists e, res = (None, Some e)).
Proof.
  destruct res as [[p|] e]; intros H.
  - left. exists p. now destruct (Parse_record _ _ _ H) as [-> _].
  - right. destruct e as [e|]; [eauto|]. exfalso. revert H. unfold Parse, bufio.Err.
    destruct (Parse_loop Stats_zero _) as [[p'|r']|pn] eqn:Hloop; cbn [bind].
    + destruct (bufio.err (bufio.NewScanner r)); discriminate.
    + destruct (Parse_loop_return_error _ _ _ Hloop) as [e' ->]. discriminate.
    + discriminate.
Qed.

Lemma Parse_returns_record_xor_error_witness :
  Parse (text example_size_line) =
    Returned (Some {| Found := true; TotalWritten := 0; TotalRead := 0;
                      BytesPerSec := float64.zero; TotalSize := 1188046 |}, None) /\
  ((exists p, (Some {| Found := true; TotalWritten := 0; TotalRead := 0;
                       BytesPerSec := float64.zero; TotalSize := 1188046 |},
               @None error) = (Some p, None)) \/
   (exists e, (Some {| Found := true; TotalWritten := 0; TotalRead := 0;
                       BytesPerSec := float64.zero; TotalSize := 1188046 |},
               @None error) = (None, Some e))).
Proof.
  assert (H : Parse (text example_size_line) =
    Returned (Some {| Found := true; TotalWritten := 0; TotalRead := 0;
                      BytesPerSec := float64.zero; TotalSize := 1188046 |}, None))
    by (vm_compute; reflexivity).
  split; [exact H|]. exact (Parse_returns_record_xor_error _ _ H).
Defined.

(** X4: in every record [Parse] returns, [TotalWritten], [TotalRead] and
    [TotalSize] are between 0 and 2^63 - 1, and [BytesPerSec] is zero or a
    positive finite float64: never a NaN, an infinity or a negative
    number. *)
Theorem Parse_record_in_range (r : bufio.Reader) (p : Stats) (e : option error) :
  Parse r = Returned (Some p, e) ->
  0 <= TotalWritten p <= 2 ^ 63 - 1 /\
  0 <= TotalRead p <= 2 ^ 63 - 1 /\
  0 <= TotalSize p <= 2 ^ 63 - 1 /\
  (BytesPerSec p = S754_zero false \/
   exists m ex, BytesPerSec p = S754_finite false m ex).
Proof.
  intros H. destruct (Parse_record _ _ _ H) as (_ & Hloop & _).
  exact (Parse_loop_invariant stats_ok Parse_line_stats_ok _ _ _ Stats_zero_ok Hloop).
Qed.

Lemma Parse_record_in_range_witness :
  let data := example_transfer_line ++ nl ++ example_size_line ++ nl in
  Parse (text data) = Returned (Some example_stats, None) /\
  0 <= TotalWritten example_stats <= 2 ^ 63 - 1 /\
  0 <= TotalRead example_stats <= 2 ^ 63 - 1 /\
  0 <= TotalSize example_stats <= 2 ^ 63 - 1 /\
  (BytesPerSec example_stats = S754_zero false \/
   exists m ex, BytesPerSec example_stats = S754_finite false m ex).
Proof.
  cbv zeta.
  assert (H : Parse (text (example_transfer_line ++ nl ++ example_size_line ++ nl)) =
              Returned (Some example_stats, None)) by (vm_compute; reflexivity).
  split; [exact H|]. exact (Parse_record_in_range _ _ _ H).
Defined.

Lemma Parse_line_Found (p : Stats) (line : string) (p' : Stats) :
  Parse_line p line = Returned (Continue p') ->
  Found p' = Found p || recognized line.
Proof.
  destruct (Parse_line_outcome p line)
    as [[Hrec ->]|[(_ & _ & ->)|[(n1 & n2 & n3 & -> & _ & _ & _ & ->)
       |[(_ & _ & _ & ->)|(n4 & n5 & -> & _ & _ & ->)]]]];
    intros H; try discriminate H.
  - injection H as <-. now rewrite Hrec, orb_false_r.
  - assert (Hrec : recognized (transfer_shape n1 n2 n3) = true).
    { unfold recognized, transfer_shape. now rewrite HasPrefix_app. }
    rewrite Hrec, orb_true_r. unfold store_transfer in H.
    destruct (strconv.ParseInt _ 0 64) as [w [?|]]; [discriminate H|].
    destruct (strconv.ParseInt _ 0 64) as [rd [?|]]; [discriminate H|].
    destruct (strconv.ParseFloat _) as [bps [?|]]; [discriminate H|].
    now injection H as <-.
  - assert (Hrec : recognized (size_shape n4 n5) = true).
    { unfold recognized, size_shape. now rewrite HasPrefix_app, orb_true_r. }
    rewrite Hrec, orb_true_r. unfold store_size in H.
    destruct (strconv.ParseInt _ 0 64) as [sz [?|]]; [discriminate H|].
    now injection H as <-.
Qed.

Lemma Parse_loop_Found (ls : list string) (p p' : Stats) :
  Parse_loop p ls = Returned (Continue p') ->
  Found p' = Found p || existsb recognized ls.
Proof.
  revert p. induction ls as [|line ls IH]; intros p H.
  - injection H as <-. now rewrite orb_false_r.
  - cbn [Parse_loop] in H.
    destruct (Parse_line p line) as [[p1|r]|pn] eqn:Hl; cbn [bind] in H;
      try discriminate H.
    rewrite (IH _ H), (Parse_line_Found _ _ _ Hl). cbn [existsb].
    now rewrite orb_assoc.
Qed.

(** X5: in a record [Parse] returns, [Found] is true exactly when some
    line of the input starts with [sent ] or with [total size is ]. *)
Theorem Parse_Found_iff_recognized (data : string) (p : Stats) :
  Parse (text data) = Returned (Some p, None) ->
  Found p = existsb recognized (lines data).
Proof.
  intros H. destruct (Parse_text_record _ _ _ H) as [_ Hloop].
  exact (Parse_loop_Found _ _ _ Hloop).
Qed.

Lemma Parse_Found_iff_recognized_witness :
  (let data := "building file list" ++ nl ++ example_size_line ++ nl in
   let p := {| Found := true; TotalWritten := 0; TotalRead := 0;
               BytesPerSec := float64.zero; TotalSize := 1188046 |} in
   Parse (text data) = Returned (Some p, None) /\
   Found p = existsb recognized (lines data)) /\
  (let data := "building file list" ++ nl ++ "done" ++ nl in
   Parse (text data) = Returned (Some Stats_zero, None) /\
   Found Stats_zero = existsb recognized (lines data)).
Proof.
  cbv zeta. split.
  - match goal with
    | |- ?A /\ _ => assert (H : A) by (vm_compute; reflexivity)
    end.
    split; [exact H|]. exact (Parse_Found_iff_recognized _ _ H).
  - match goal with
    | |- ?A /\ _ => assert (H : A) by (vm_compute; reflexivity)
    end.
    split; [exact H|]. exact (Parse_Found_iff_recognized _ _ H).
Defined.

Lemma Parse_line_no_sent (p : Stats) (line : string) (p' : Stats) :
  strings.HasPrefix line "sent " = false ->
  Parse_line p line = Returned (Continue p') ->
  TotalWritten p' = TotalWritten p /\ TotalRead p' = TotalRead p /\
  BytesPerSec p' = BytesPerSec p.
Proof.
  intros Hsent. unfold Parse_line. rewrite Hsent.
  destruct (strings.HasPrefix line "total size is ").
  - destruct (index _ 1) as [m1|pn]; cbn [bind]; [|discriminate].
    destruct (strconv.ParseInt _ 0 64) as [v [?|]]; [discriminate|].
    intros H. now injection H as <-.
  - intros H. now injection H as <-.
Qed.

(** X6: when no line of the input starts with [sent ], a record [Parse]
    returns has [TotalWritten] and [TotalRead] zero and [BytesPerSec] zero,
    a total-size line or not, and [Speedup] on it panics with a division by
    zero. *)
Theorem Parse_without_sent_line (data : string) (p : Stats) :
  Parse (text data) = Returned (Some p, None) ->
  Forall (fun line => strings.HasPrefix line "sent " = false) (lines data) ->
  TotalWritten p = 0 /\ TotalRead p = 0 /\ BytesPerSec p = S754_zero false /\
  Speedup p = Panicked IntegerDivideByZero.
Proof.
  intros H Hls. destruct (Parse_text_record _ _ _ H) as [_ Hloop].
  assert (Hinv : forall ls p0 p1,
             Forall (fun line => strings.HasPrefix line "sent " = false) ls ->
             Parse_loop p0 ls = Returned (Continue p1) ->
             TotalWritten p1 = TotalWritten p0 /\ TotalRead p1 = TotalRead p0 /\
             BytesPerSec p1 = BytesPerSec p0).
  { induction ls as [|line ls IH]; intros p0 p1 Hall Hl.
    - injection Hl as <-. now repeat split.
    - inversion Hall as [|? ? Hline Hrest]; subst. cbn [Parse_loop] in Hl.
      destruct (Parse_line p0 line) as [[p2|r]|pn] eqn:E; cbn [bind] in Hl;
        try discriminate Hl.
      destruct (Parse_line_no_sent _ _ _ Hline E) as (<- & <- & <-).
      exact (IH _ _ Hrest Hl). }
  destruct (Hinv _ _ _ Hls Hloop) as (Hw & Hr & Hb). cbn in Hw, Hr, Hb.
  repeat split; try assumption.
  unfold Speedup. now rewrite Hw, Hr.
Qed.

Lemma Parse_without_sent_line_witness :
  let data := "building file list" ++ nl ++ example_size_line ++ nl in
  let p := {| Found := true; TotalWritten := 0; TotalRead := 0;
              BytesPerSec := float64.zero; TotalSize := 1188046 |} in
  Parse (text data) = Returned (Some p, None) /\
  Forall (fun line => strings.HasPrefix line "sent " = false) (lines data) /\
  Speedup p = Panicked IntegerDivideByZero.
Proof.
  cbv zeta.
  match goal with
  | |- ?A /\ ?B /\ _ =>
      assert (H : A) by (vm_compute; reflexivity);
      assert (Hls : B) by (repeat constructor)
  end.
  split; [exact H|]. split; [exact Hls|].
  exact (proj2 (proj2 (proj2 (Parse_without_sent_line _ _ H Hls)))).
Defined.

(** X7: on a record [Parse] has returned, [Speedup] panics exactly when
    [TotalWritten] and [TotalRead] are both zero, and returns a value as
    soon as one of them is not: the int64 sum of two such counts is zero
    only when both are. *)
Theorem Speedup_of_Parse_record (r : bufio.Reader) (p : Stats) :
  Parse r = Returned (Some p, None) ->
  (Speedup p = Panicked IntegerDivideByZero <->
   TotalWritten p = 0 /\ TotalRead p = 0) /\
  (TotalWritten p <> 0 \/ TotalRead p <> 0 -> exists f, Speedup p = Returned f).
Proof.
  intros H. destruct (Parse_record _ _ _ H) as (_ & Hloop & _).
  destruct (Parse_loop_invariant stats_ok Parse_line_stats_ok _ _ _
              Stats_zero_ok Hloop) as (Hw & Hr & _).
  pose proof (add_zero_nonneg _ _ Hw Hr) as Hz.
  unfold Speedup, int64.div.
  destruct (Z.eqb_spec (int64.add (TotalWritten p) (TotalRead p)) 0) as [E|E];
    cbn [bind].
  - split; [split; [intros _; now apply Hz|reflexivity]|].
    apply Hz in E as [-> ->]. intros [Hne|Hne]; now destruct Hne.
  - split; [|eauto]. split; [discriminate|]. intros Hb. apply Hz in Hb. contradiction.
Qed.

Lemma Speedup_of_Parse_record_witness :
  let data := example_transfer_line ++ nl ++ example_size_line ++ nl in
  Parse (text data) = Returned (Some example_stats, None) /\
  (TotalWritten example_stats <> 0 \/ TotalRead example_stats <> 0) /\
  exists f, Speedup example_stats = Returned f.
Proof.
  cbv zeta.
  assert (H : Parse (text (example_transfer_line ++ nl ++ example_size_line ++ nl)) =
              Returned (Some example_stats, None)) by (vm_compute; reflexivity).
  assert (Hne : TotalWritten example_stats <> 0 \/ TotalRead example_stats <> 0)
    by (left; discriminate).
  split; [exact H|]. split; [exact Hne|].
  exact (proj2 (Speedup_of_Parse_record _ _ H) Hne).
Defined.

Lemma Parse_eq_tokens (r : bufio.Reader) :
  Parse r = Parse_tokens (fst (bufio.scan (bufio.r_err r) (bufio.segments (bufio.r_data r))))
                         (snd (bufio.scan (bufio.r_err r) (bufio.segments (bufio.r_data r)))).
Proof.
  unfold Parse, Parse_tokens, bufio.NewScanner, bufio.Err.
  destruct (bufio.scan _ _) as [toks err]. cbn [fst snd bufio.tokens bufio.err].
  destruct (Parse_loop Stats_zero toks) as [[p|res]|pn]; cbn [bind]; try reflexivity.
  now destruct err.
Qed.

Lemma Parse_loop_panic (ls : list string) (p : Stats) (pn : panic) :
  Parse_loop p ls = Panicked pn ->
  pn = IndexOutOfRange 1 0 /\ Exists malformed_size_line ls.
Proof.
  revert p. induction ls as [|line ls IH]; intros p; [discriminate|].
  cbn [Parse_loop].
  destruct (Parse_line_outcome p line)
    as [[_ ->]|[(_ & _ & ->)|[(n1 & n2 & n3 & _ & _ & _ & _ & ->)
       |[(Hsent & Hsize & Hm & ->)|(n4 & n5 & _ & _ & _ & ->)]]]]; cbn [bind].
  - intros H. destruct (IH _ H) as [-> Hex]. split; [reflexivity|now right].
  - discriminate.
  - destruct (store_transfer p n1 n2 n3) as [p'|res]; [|discriminate].
    intros H. destruct (IH _ H) as [-> Hex]. split; [reflexivity|now right].
  - intros H. injection H as <-. split; [reflexivity|]. left.
    unfold malformed_size_line, regexp.FindStringSubmatch. now rewrite Hm.
  - destruct (store_size p n4) as [p'|res]; [|discriminate].
    intros H. destruct (IH _ H) as [-> Hex]. split; [reflexivity|now right].
Qed.

(** X8: [Parse] returns on every input with one exception: it panics,
    with index out of range [1] with length 0 and nothing else, and then
    some line of the input starts with [total size is ] and is not matched by
    [statsSizeRe].  So it returns on every input without such a line. *)
Theorem Parse_panics_only_on_malformed_size_line (data : string) :
  (exists res, Parse (text data) = Returned res) \/
  (Parse (text data) = Panicked (IndexOutOfRange 1 0) /\
   Exists malformed_size_line (lines data)).
Proof.
  rewrite Parse_eq_tokens. unfold text, lines. cbn [bufio.r_data bufio.r_err].
  destruct (scan_prefix EOF (bufio.segments data)) as (rest & Hrest & _).
  destruct (bufio.scan EOF (bufio.segments data)) as [toks err].
  cbn [fst snd] in *. unfold Parse_tokens.
  destruct (Parse_loop Stats_zero toks) as [[p|res]|pn] eqn:Hloop; cbn [bind].
  - left. destruct err; eauto.
  - left. eauto.
  - right. destruct (Parse_loop_panic _ _ _ Hloop) as [-> Hex].
    split; [reflexivity|]. rewrite Hrest. apply Exists_app. now left.
Qed.

(** ** Line ends *)

Lemma segments_snoc_nl (data : string) :
  bufio.segments (data ++ nl) = (bufio.segments data ++ [EmptyString])%list.
Proof.
  induction data as [|c data IH]; [reflexivity|].
  cbn [append bufio.segments]. rewrite IH.
  destruct (Ascii.eqb c "010"); [reflexivity|].
  destruct (bufio.segments data) as [|seg segs] eqn:E; [|reflexivity].
  now destruct data; [|cbn in E; destruct (Ascii.eqb _ _), (bufio.segments _)].
Qed.

Lemma segments_not_nil (data : string) : bufio.segments data <> [].
Proof.
  destruct data as [|c data]; [discriminate|]. cbn [bufio.segments].
  destruct (Ascii.eqb c "010"); [discriminate|].
  now destruct (bufio.segments data).
Qed.

Lemma scan_snoc_empty (e : error) (segs : list string) :
  segs <> [] ->
  bufio.scan e (segs ++ [EmptyString]) = bufio.scan e segs \/
  bufio.scan e (segs ++ [EmptyString]) =
    ((fst (bufio.scan e segs) ++ [EmptyString])%list, snd (bufio.scan e segs)).
Proof.
  induction segs as [|f segs IH]; [intros H; now destruct H|]. intros _.
  destruct segs as [|g segs].
  - cbn [app bufio.scan]. destruct f as [|c f]; [now right|].
    destruct (bufio.fits (String c f)); now left.
  - specialize (IH ltac:(discriminate)).
    change ((f :: g :: segs) ++ [""])%list with (f :: ((g :: segs) ++ [""]))%list.
    change (bufio.scan e (f :: (g :: segs) ++ [""])%list) with
      (if bufio.fits f
       then let '(tokens, err) := bufio.scan e ((g :: segs) ++ [""])%list in
            (bufio.dropCR f :: tokens, err)
       else ([], ErrTooLong)).
    change (bufio.scan e (f :: g :: segs)) with
      (if bufio.fits f
       then let '(tokens, err) := bufio.scan e (g :: segs) in
            (bufio.dropCR f :: tokens, err)
       else ([], ErrTooLong)).
    destruct (bufio.fits f); [|now left].
    destruct IH as [-> | ->]; [now left|right].
    now destruct (bufio.scan e (g :: segs)).
Qed.

Lemma Parse_tokens_snoc_empty (toks : list string) (err : error) :
  Parse_tokens (toks ++ [EmptyString]) err = Parse_tokens toks err.
Proof.
  unfold Parse_tokens. rewrite Parse_loop_app.
  destruct (Parse_loop Stats_zero toks) as [[p|res]|pn]; reflexivity.
Qed.

(** X9: a newline at the end of the input changes nothing: [Parse] gives
    the same result, record, error or panic, with and without it, whatever
    error the reader ends on. *)
Theorem Parse_final_newline (data : string) (e : error) :
  Parse {| bufio.r_data := data ++ nl; bufio.r_err := e |} =
  Parse {| bufio.r_data := data; bufio.r_err := e |}.
Proof.
  rewrite !Parse_eq_tokens. cbn [bufio.r_data bufio.r_err].
  rewrite segments_snoc_nl.
  destruct (scan_snoc_empty e _ (segments_not_nil data)) as [-> | ->];
    [reflexivity|].
  cbn [fst snd]. apply Parse_tokens_snoc_empty.
Qed.

Lemma all_bytes_app (f : ascii -> bool) (a b : string) :
  all_bytes f (a ++ b) = all_bytes f a && all_bytes f b.
Proof.
  induction a as [|c a IH]; [reflexivity|]. cbn. now rewrite IH, andb_assoc.
Qed.

Lemma all_bytes_impl (f g : ascii -> bool) (s : string) :
  (forall c, f c = true -> g c = true) ->
  all_bytes f s = true -> all_bytes g s = true.
Proof.
  intros Hfg. induction s as [|c s IH]; [reflexivity|]. cbn. intros H.
  apply andb_prop in H as [Hc Hs]. now rewrite (Hfg _ Hc), (IH Hs).
Qed.

Lemma dropCR_addCR (l : string) : bufio.dropCR (addCR l) = l.
Proof.
  unfold addCR. induction l as [|c l IH]; [reflexivity|].
  cbn [append bufio.dropCR]. rewrite IH. now destruct l.
Qed.

Lemma plain_not_newline (c : ascii) : plain_byte c = true -> not_newline c = true.
Proof. unfold plain_byte, not_newline. intros H. now apply andb_prop in H as [-> _]. Qed.

Lemma plain_not_CR (c : ascii) :
  plain_byte c = true -> negb (Ascii.eqb c "013") = true.
Proof. unfold plain_byte. intros H. now apply andb_prop in H as [_ ->]. Qed.

Lemma length_append (a b : string) :
  String.length (a ++ b) = (String.length a + String.length b)%nat.
Proof.
  induction a as [|c a IH]; [reflexivity|]. cbn. now rewrite IH.
Qed.

Lemma fits_prefix (a b : string) : bufio.fits (a ++ b) = true -> bufio.fits a = true.
Proof.
  unfold bufio.fits. rewrite length_append. intros H.
  apply Z.ltb_lt in H. apply Z.ltb_lt. lia.
Qed.

(** X10: lines that end in a carriage return and a newline are read as
    the same lines ending in a newline alone: for lines without a carriage
    return or a newline inside, each within the scanner's buffer, [Parse]
    gives the same result on both texts. *)
Theorem Parse_CRLF (ls : list string) :
  Forall (fun l => all_bytes plain_byte l = true) ls ->
  Forall (fun l => bufio.fits (addCR l) = true) ls ->
  Parse (text (unlines (map addCR ls))) = Parse (text (unlines ls)).
Proof.
  intros Hplain Hfits.
  assert (H1 : input_lines (text (unlines (map addCR ls))) ls).
  { replace ls with (map bufio.dropCR (map addCR ls)) at 2.
    - apply input_lines_unlines.
      + apply Forall_map. eapply Forall_impl; [|exact Hplain]. intros l Hl.
        unfold addCR. rewrite all_bytes_app.
        now rewrite (all_bytes_impl _ _ _ plain_not_newline Hl).
      + apply Forall_map. exact Hfits.
    - rewrite map_map. rewrite <- (map_id ls) at 2. apply map_ext.
      exact dropCR_addCR. }
  assert (H2 : input_lines (text (unlines ls)) ls).
  { replace ls with (map bufio.dropCR ls) at 2.
    - apply input_lines_unlines.
      + eapply Forall_impl; [|exact Hplain]. intros l Hl.
        exact (all_bytes_impl _ _ _ plain_not_newline Hl).
      + eapply Forall_impl; [|exact Hfits]. intros l Hl.
        exact (fits_prefix _ _ Hl).
    - rewrite <- (map_id ls) at 2. apply map_ext_in. intros l Hin.
      apply dropCR_no_CR. rewrite Forall_forall in Hplain.
      exact (all_bytes_impl _ _ _ plain_not_CR (Hplain _ Hin)). }
  unfold Parse. now rewrite (NewScanner_input_lines _ _ H1),
                            (NewScanner_input_lines _ _ H2).
Qed.

Lemma Parse_CRLF_witness :
  let ls := ["building file list"; example_transfer_line; example_size_line] in
  Forall (fun l => all_bytes plain_byte l = true) ls /\
  Forall (fun l => bufio.fits (addCR l) = true) ls /\
  Parse (text (unlines (map addCR ls))) = Returned (Some example_stats, None) /\
  Parse (text (unlines (map addCR ls))) = Parse (text (unlines ls)).
Proof.
  cbv zeta.
  match goal with
  | |- ?A /\ ?B /\ _ =>
      assert (Ha : A) by (repeat constructor);
      assert (Hb : B) by (repeat constructor)
  end.
  split; [exact Ha|]. split; [exact Hb|]. split; [vm_compute; reflexivity|].
  exact (Parse_CRLF _ Ha Hb).
Defined.

(** ** A text and what follows it *)

Lemma segments_app_nl (a b : string) :
  bufio.segments (a ++ nl ++ b) = (bufio.segments a ++ bufio.segments b)%list.
Proof.
  induction a as [|c a IH]; [reflexivity|].
  cbn [append bufio.segments]. cbn [append] in IH. rewrite IH.
  destruct (Ascii.eqb c "010"); [reflexivity|].
  pose proof (segments_not_nil a) as Hne.
  now destruct (bufio.segments a).
Qed.

(** The scan of a text that goes on after a newline: it stops where the
    scan of the first part stopped on a line too long, and otherwise goes
    through the first part, an empty last line of it now a token, and on
    into the second. *)
Lemma scan_app (segs1 segs2 : list string) :
  segs1 <> [] -> segs2 <> [] ->
  (snd (bufio.scan EOF segs1) = ErrTooLong /\
   bufio.scan EOF (segs1 ++ segs2) = bufio.scan EOF segs1) \/
  (snd (bufio.scan EOF segs1) = EOF /\
   exists pad,
     Forall (fun l => l = EmptyString) pad /\
     bufio.scan EOF (segs1 ++ segs2) =
       ((fst (bufio.scan EOF segs1) ++ pad ++ fst (bufio.scan EOF segs2))%list,
        snd (bufio.scan EOF segs2))).
Proof.
  intros H1 H2. induction segs1 as [|f segs1 IH]; [now destruct H1|]. clear H1.
  destruct segs2 as [|g2 segs2]; [now destruct H2|]. clear H2.
  destruct segs1 as [|g segs1].
  - change ([f] ++ g2 :: segs2)%list with (f :: g2 :: segs2).
    change (bufio.scan EOF (f :: g2 :: segs2)) with
      (if bufio.fits f
       then let '(tokens, err) := bufio.scan EOF (g2 :: segs2) in
            (bufio.dropCR f :: tokens, err)
       else ([], ErrTooLong)).
    set (S2 := bufio.scan EOF (g2 :: segs2)).
    cbn [bufio.scan]. destruct f as [|c f].
    + right. split; [reflexivity|]. exists [EmptyString].
      split; [now repeat constructor|].
      change (bufio.fits "") with true. cbv iota.
      now destruct S2.
    + destruct (bufio.fits (String c f)).
      * right. split; [reflexivity|]. exists []. split; [constructor|].
        now destruct S2.
      * left. now split.
  - specialize (IH ltac:(discriminate)).
    change ((f :: g :: segs1) ++ g2 :: segs2)%list
      with (f :: ((g :: segs1) ++ g2 :: segs2))%list.
    change (bufio.scan EOF (f :: (g :: segs1) ++ g2 :: segs2)%list) with
      (if bufio.fits f
       then let '(tokens, err) := bufio.scan EOF ((g :: segs1) ++ g2 :: segs2)%list in
            (bufio.dropCR f :: tokens, err)
       else ([], ErrTooLong)).
    change (bufio.scan EOF (f :: g :: segs1)) with
      (if bufio.fits f
       then let '(tokens, err) := bufio.scan EOF (g :: segs1) in
            (bufio.dropCR f :: tokens, err)
       else ([], ErrTooLong)).
    set (S2 := bufio.scan EOF (g2 :: segs2)) in *.
    destruct (bufio.fits f); [|left; now split].
    destruct IH as [[He ->]|(He & pad & Hpad & ->)].
    + left. destruct (bufio.scan EOF (g :: segs1)). now split.
    + right. destruct (bufio.scan EOF (g :: segs1)) as [t1 e1]. cbn [fst snd] in *.
      split; [exact He|]. exists pad. now split.
Qed.

Lemma scan_err_cases (e : error) (segs : list string) :
  snd (bufio.scan e segs) = e \/ snd (bufio.scan e segs) = ErrTooLong.
Proof.
  destruct (scan_prefix e segs) as (rest & _ & [[H _]|H]); auto.
Qed.

Lemma Parse_loop_pad (toks pad : list string) (p : Stats) :
  Forall (fun l => l = EmptyString) pad ->
  Parse_loop p (toks ++ pad) = Parse_loop p toks.
Proof.
  intros Hpad. rewrite Parse_loop_app.
  destruct (Parse_loop p toks) as [[p'|res]|pn]; cbn [bind]; try reflexivity.
  apply Parse_loop_unrecognized. eapply Forall_impl; [|exact Hpad].
  intros l ->. now split.
Qed.

(** X11: a failure of [Parse] is final.  When [Parse] does not return a
    record on a text, it gives the same error, or the same panic, on every
    text that goes on after it on a new line: the lines after the first
    failure are not looked at. *)
Theorem Parse_failure_is_final (data1 data2 : string) :
  (forall p, Parse (text data1) <> Returned (Some p, None)) ->
  Parse (text (data1 ++ nl ++ data2)) = Parse (text data1).
Proof.
  rewrite !Parse_eq_tokens. unfold text. cbn [bufio.r_data bufio.r_err].
  rewrite segments_app_nl. intros Hfail.
  destruct (scan_app _ _ (segments_not_nil data1) (segments_not_nil data2))
    as [[_ ->]|(He & pad & Hpad & ->)]; [reflexivity|].
  cbn [fst snd]. rewrite He in *. unfold Parse_tokens in *.
  rewrite app_assoc, Parse_loop_app, (Parse_loop_pad _ _ _ Hpad).
  destruct (Parse_loop Stats_zero (fst (bufio.scan EOF (bufio.segments data1))))
    as [[p|res]|pn]; cbn [bind] in *; try reflexivity.
  now destruct (Hfail p).
Qed.

Lemma Parse_failure_is_final_witness :
  let data1 := "building file list" ++ nl ++ "sent 1,590 bytes" in
  let data2 := example_transfer_line ++ nl ++ example_size_line ++ nl in
  (forall p, Parse (text data1) <> Returned (Some p, None)) /\
  Parse (text data1) = Returned (None, Some sent_error) /\
  Parse (text (data1 ++ nl ++ data2)) = Parse (text data1).
Proof.
  cbv zeta.
  assert (H : Parse (text ("building file list" ++ nl ++ "sent 1,590 bytes")) =
              Returned (None, Some sent_error)) by (vm_compute; reflexivity).
  assert (Hfail : forall p, Parse (text ("building file list" ++ nl ++
                                         "sent 1,590 bytes")) <>
                            Returned (Some p, None)).
  { intros p. rewrite H. discriminate. }
  split; [exact Hfail|]. split; [exact H|].
  exact (Parse_failure_is_final _ _ Hfail).
Defined.

Lemma Parse_record_scan (data : string) (p : Stats) :
  Parse (text data) = Returned (Some p, None) ->
  snd (bufio.scan EOF (bufio.segments data)) = EOF /\
  Parse_loop Stats_zero (fst (bufio.scan EOF (bufio.segments data))) =
    Returned (Continue p).
Proof.
  rewrite Parse_eq_tokens. unfold text. cbn [bufio.r_data bufio.r_err].
  destruct (scan_err_cases EOF (bufio.segments data)) as [He|He];
    rewrite He; unfold Parse_tokens;
    destruct (Parse_loop Stats_zero _) as [[p'|res]|pn] eqn:Hloop; cbn [bind];
    try discriminate.
  - intros H. injection H as <-. now split.
  - destruct (Parse_loop_return_error _ _ _ Hloop) as [e ->]. discriminate.
  - destruct (Parse_loop_return_error _ _ _ Hloop) as [e ->]. discriminate.
Qed.

(** One more line after a text that parses: the result is what the body
    of the loop makes of the line, from the record of the text. *)
Lemma Parse_append_line (data : string) (l : string) (p : Stats) :
  Parse (text data) = Returned (Some p, None) ->
  all_bytes plain_byte l = true -> l <> EmptyString -> bufio.fits l = true ->
  Parse (text (data ++ nl ++ l)) =
  (c <- Parse_line p l ;;
   match c with
   | Continue p' => Returned (Some p', None)
   | Return res => Returned res
   end).
Proof.
  intros H Hplain Hne Hfits.
  destruct (Parse_record_scan _ _ H) as [He Hloop].
  rewrite Parse_eq_tokens. unfold text. cbn [bufio.r_data bufio.r_err].
  rewrite segments_app_nl.
  rewrite (segments_no_newline l (all_bytes_impl _ _ _ plain_not_newline Hplain)).
  destruct (scan_app (bufio.segments data) [l] (segments_not_nil data)
              ltac:(discriminate)) as [[He' _]|(_ & pad & Hpad & ->)].
  - rewrite He in He'. discriminate He'.
  - assert (Hl : bufio.scan EOF [l] = ([l], EOF)).
    { cbn [bufio.scan]. rewrite Hfits.
      rewrite (dropCR_no_CR l (all_bytes_impl _ _ _ plain_not_CR Hplain)).
      destruct l; [now destruct Hne|reflexivity]. }
    rewrite Hl. cbn [fst snd]. unfold Parse_tokens.
    rewrite app_assoc, Parse_loop_app, (Parse_loop_pad _ _ _ Hpad), Hloop.
    cbn [bind Parse_loop].
    destruct (Parse_line p l) as [[p'|res]|pn]; reflexivity.
Qed.

Lemma class_plain (c : ascii) :
  regexp.class_mem digits_commas_dots c = true -> plain_byte c = true.
Proof.
  unfold plain_byte. intros H.
  destruct (Ascii.eqb_spec c "010") as [->|_]; [discriminate H|].
  destruct (Ascii.eqb_spec c "013") as [->|_]; [discriminate H|]. reflexivity.
Qed.

Lemma digits_commas_in_dots (c : ascii) :
  regexp.class_mem digits_commas c = true ->
  regexp.class_mem digits_commas_dots c = true.
Proof.
  unfold regexp.class_mem, digits_commas, digits_commas_dots. cbn [existsb].
  intros H. rewrite orb_false_r in H. apply orb_prop in H as [->| ->];
    [reflexivity|now rewrite orb_true_r].
Qed.

Lemma class_string_plain (cls : regexp.class) (n : string) :
  cls = digits_commas \/ cls = digits_commas_dots ->
  class_string cls n -> all_bytes plain_byte n = true.
Proof.
  intros [-> | ->] [_ H].
  - apply (all_bytes_impl _ _ _ class_plain).
    exact (all_bytes_impl _ _ _ digits_commas_in_dots H).
  - exact (all_bytes_impl _ _ _ class_plain H).
Qed.

Lemma transfer_shape_plain (n1 n2 n3 : string) :
  class_string digits_commas n1 -> class_string digits_commas n2 ->
  class_string digits_commas_dots n3 ->
  all_bytes plain_byte (transfer_shape n1 n2 n3) = true /\
  transfer_shape n1 n2 n3 <> EmptyString.
Proof.
  intros H1 H2 H3. split; [|discriminate]. unfold transfer_shape.
  rewrite !all_bytes_app.
  rewrite (class_string_plain _ _ (or_introl eq_refl) H1).
  rewrite (class_string_plain _ _ (or_introl eq_refl) H2).
  rewrite (class_string_plain _ _ (or_intror eq_refl) H3). reflexivity.
Qed.

Lemma size_shape_plain (n4 n5 : string) :
  class_string digits_commas n4 -> class_string digits_commas_dots n5 ->
  all_bytes plain_byte (size_shape n4 n5) = true /\
  size_shape n4 n5 <> EmptyString.
Proof.
  intros H4 H5. split; [|discriminate]. unfold size_shape.
  rewrite !all_bytes_app.
  rewrite (class_string_plain _ _ (or_introl eq_refl) H4).
  rewrite (class_string_plain _ _ (or_intror eq_refl) H5). reflexivity.
Qed.

Lemma transfer_line_shape (t : string) (w rd : Z) (bps : float64.t) :
  transfer_line t w rd bps ->
  all_bytes plain_byte t = true /\ t <> EmptyString.
Proof.
  intros (n1 & n2 & n3 & Hm & _). unfold regexp.FindStringSubmatch in Hm.
  destruct (regexp.match_nodes statsTransferRe t) as [caps|] eqn:E;
    [|discriminate Hm].
  injection Hm as ->.
  destruct (statsTransferRe_sound _ _ _ _ E) as (-> & H1 & H2 & H3).
  now apply transfer_shape_plain.
Qed.

Lemma size_line_shape (s : string) (sz : Z) :
  size_line s sz -> all_bytes plain_byte s = true /\ s <> EmptyString.
Proof.
  intros (n4 & n5 & Hm & _). unfold regexp.FindStringSubmatch in Hm.
  destruct (regexp.match_nodes statsSizeRe s) as [caps|] eqn:E; [|discriminate Hm].
  injection Hm as ->.
  destruct (statsSizeRe_sound _ _ _ E) as (-> & H4 & H5).
  now apply size_shape_plain.
Qed.

(** X12: a transfer-totals line of fewer than 65536 bytes that the
    pattern matches and whose three numbers convert, put after a text that
    parses, replaces [TotalWritten], [TotalRead] and [BytesPerSec] by the
    converted numbers, whatever they were, sets [Found] and keeps
    [TotalSize]: of several such lines the last one counts. *)
Theorem Parse_append_transfer_line
        (data t : string) (p : Stats) (w rd : Z) (bps : float64.t) :
  Parse (text data) = Returned (Some p, None) ->
  transfer_line t w rd bps ->
  bufio.fits t = true ->
  Parse (text (data ++ nl ++ t)) =
    Returned (Some {| Found := true; TotalWritten := w; TotalRead := rd;
                      BytesPerSec := bps; TotalSize := TotalSize p |}, None).
Proof.
  intros H Ht Hfits. destruct (transfer_line_shape _ _ _ _ Ht) as [Hplain Hne].
  rewrite (Parse_append_line _ _ _ H Hplain Hne Hfits).
  now rewrite (Parse_line_transfer _ _ _ _ _ Ht).
Qed.

Lemma Parse_append_transfer_line_witness :
  let data := "sent 7 bytes  received 9 bytes  1.5 bytes/sec" ++ nl ++
              example_size_line in
  let p := {| Found := true; TotalWritten := 7; TotalRead := 9;
              BytesPerSec := S754_finite false (3 * 2 ^ 51) (-52);
              TotalSize := 1188046 |} in
  Parse (text data) = Returned (Some p, None) /\
  transfer_line example_transfer_line 1590 18 (float64.of_int 3216) /\
  bufio.fits example_transfer_line = true /\
  Parse (text (data ++ nl ++ example_transfer_line)) =
    Returned (Some example_stats, None).
Proof.
  cbv zeta.
  match goal with
  | |- ?A /\ _ => assert (H : A) by (vm_compute; reflexivity)
  end.
  assert (Ht : transfer_line example_transfer_line 1590 18 (float64.of_int 3216)).
  { exists "1,590", "18", "3,216.00". repeat split; vm_compute; reflexivity. }
  assert (Hf : bufio.fits example_transfer_line = true) by reflexivity.
  split; [exact H|]. split; [exact Ht|]. split; [exact Hf|].
  exact (Parse_append_transfer_line _ _ _ _ _ _ H Ht Hf).
Defined.

(** X13: a total-size line of fewer than 65536 bytes that the pattern
    matches and whose size converts, put after a text that parses, replaces
    [TotalSize] by the converted size, sets [Found] and keeps
    [TotalWritten], [TotalRead] and [BytesPerSec]. *)
Theorem Parse_append_size_line (data s : string) (p : Stats) (sz : Z) :
  Parse (text data) = Returned (Some p, None) ->
  size_line s sz ->
  bufio.fits s = true ->
  Parse (text (data ++ nl ++ s)) =
    Returned (Some {| Found := true; TotalWritten := TotalWritten p;
                      TotalRead := TotalRead p; BytesPerSec := BytesPerSec p;
                      TotalSize := sz |}, None).
Proof.
  intros H Hs Hfits. destruct (size_line_shape _ _ Hs) as [Hplain Hne].
  rewrite (Parse_append_line _ _ _ H Hplain Hne Hfits).
  now rewrite (Parse_line_size _ _ _ Hs).
Qed.

Lemma Parse_append_size_line_witness :
  let data := "total size is 5  speedup is 1.00" ++ nl ++ example_transfer_line in
  let p := {| Found := true; TotalWritten := 1590; TotalRead := 18;
              BytesPerSec := float64.of_int 3216; TotalSize := 5 |} in
  Parse (text data) = Returned (Some p, None) /\
  size_line example_size_line 1188046 /\
  bufio.fits example_size_line = true /\
  Parse (text (data ++ nl ++ example_size_line)) =
    Returned (Some example_stats, None).
Proof.
  cbv zeta.
  match goal with
  | |- ?A /\ _ => assert (H : A) by (vm_compute; reflexivity)
  end.
  assert (Hs : size_line example_size_line 1188046).
  { exists "1,188,046", "738.83". repeat split; vm_compute; reflexivity. }
  assert (Hf : bufio.fits example_size_line = true) by reflexivity.
  split; [exact H|]. split; [exact Hs|]. split; [exact Hf|].
  exact (Parse_append_size_line _ _ _ _ H Hs Hf).
Defined.

(** ** One line alone *)

Lemma Parse_one_line (l : string) :
  all_bytes plain_byte l = true -> l <> EmptyString -> bufio.fits l = true ->
  Parse (text l) =
  (c <- Parse_line Stats_zero l ;;
   match c with
   | Continue p' => Returned (Some p', None)
   | Return res => Returned res
   end).
Proof.
  intros Hplain Hne Hfits.
  rewrite Parse_eq_tokens. unfold text. cbn [bufio.r_data bufio.r_err].
  rewrite (segments_no_newline l (all_bytes_impl _ _ _ plain_not_newline Hplain)).
  assert (Hl : bufio.scan EOF [l] = ([l], EOF)).
  { cbn [bufio.scan]. rewrite Hfits.
    rewrite (dropCR_no_CR l (all_bytes_impl _ _ _ plain_not_CR Hplain)).
    destruct l; [now destruct Hne|reflexivity]. }
  rewrite Hl. cbn [fst snd]. unfold Parse_tokens. cbn [Parse_loop].
  destruct (Parse_line Stats_zero l) as [[p'|res]|pn]; reflexivity.
Qed.

(** X14: on an input of one transfer-totals line of fewer than 65536
    bytes whose two counts, commas taken out wherever they stand, are
    decimal numerals with no zero in front and within int64, and whose rate
    converts, [Parse] stores the decimal values of the two counts and the
    converted rate. *)
Theorem Parse_transfer_decimal (n1 n2 n3 : string) (bps : float64.t) :
  class_string digits_commas n1 -> class_string digits_commas n2 ->
  class_string digits_commas_dots n3 ->
  decimal_numeral (strings.ReplaceAll n1 "," "") ->
  decimal_numeral (strings.ReplaceAll n2 "," "") ->
  decimal_value (strings.ReplaceAll n1 "," "") <= int64.max_int ->
  decimal_value (strings.ReplaceAll n2 "," "") <= int64.max_int ->
  strconv.ParseFloat (strings.ReplaceAll n3 "," "") = (bps, None) ->
  bufio.fits (transfer_shape n1 n2 n3) = true ->
  Parse (text (transfer_shape n1 n2 n3)) =
    Returned (Some {| Found := true;
                      TotalWritten := decimal_value (strings.ReplaceAll n1 "," "");
                      TotalRead := decimal_value (strings.ReplaceAll n2 "," "");
                      BytesPerSec := bps; TotalSize := 0 |}, None).
Proof.
  intros H1 H2 H3 Hd1 Hd2 Hm1 Hm2 Hf Hfits.
  destruct (transfer_shape_plain _ _ _ H1 H2 H3) as [Hplain Hne].
  rewrite (Parse_one_line _ Hplain Hne Hfits).
  rewrite (Parse_line_transfer_shape _ _ _ _ H1 H2 H3). unfold store_transfer.
  rewrite (ParseInt_base0_decimal _ Hd1 Hm1), (ParseInt_base0_decimal _ Hd2 Hm2), Hf.
  reflexivity.
Qed.

Lemma Parse_transfer_decimal_witness :
  class_string digits_commas "1,5,90" /\ class_string digits_commas "18," /\
  class_string digits_commas_dots "3,216.00" /\
  decimal_numeral (strings.ReplaceAll "1,5,90" "," "") /\
  decimal_numeral (strings.ReplaceAll "18," "," "") /\
  decimal_value (strings.ReplaceAll "1,5,90" "," "") <= int64.max_int /\
  decimal_value (strings.ReplaceAll "18," "," "") <= int64.max_int /\
  strconv.ParseFloat (strings.ReplaceAll "3,216.00" "," "") =
    (float64.of_int 3216, None) /\
  bufio.fits (transfer_shape "1,5,90" "18," "3,216.00") = true /\
  Parse (text "sent 1,5,90 bytes  received 18, bytes  3,216.00 bytes/sec") =
    Returned (Some {| Found := true; TotalWritten := 1590; TotalRead := 18;
                      BytesPerSec := float64.of_int 3216; TotalSize := 0 |}, None).
Proof.
  assert (H1 : class_string digits_commas "1,5,90") by (split; [discriminate|reflexivity]).
  assert (H2 : class_string digits_commas "18,") by (split; [discriminate|reflexivity]).
  assert (H3 : class_string digits_commas_dots "3,216.00")
    by (split; [discriminate|reflexivity]).
  assert (Hd1 : decimal_numeral (strings.ReplaceAll "1,5,90" "," ""))
    by (split; [reflexivity|discriminate]).
  assert (Hd2 : decimal_numeral (strings.ReplaceAll "18," "," ""))
    by (split; [reflexivity|discriminate]).
  assert (Hm1 : decimal_value (strings.ReplaceAll "1,5,90" "," "") <= int64.max_int)
    by (vm_compute; discriminate).
  assert (Hm2 : decimal_value (strings.ReplaceAll "18," "," "") <= int64.max_int)
    by (vm_compute; discriminate).
  assert (Hf : strconv.ParseFloat (strings.ReplaceAll "3,216.00" "," "") =
               (float64.of_int 3216, None)) by (vm_compute; reflexivity).
  assert (Hfits : bufio.fits (transfer_shape "1,5,90" "18," "3,216.00") = true)
    by reflexivity.
  repeat (split; [assumption|]).
  exact (Parse_transfer_decimal _ _ _ _ H1 H2 H3 Hd1 Hd2 Hm1 Hm2 Hf Hfits).
Defined.

(** On digits whose value does not fit uint64, the loop of [ParseUint]
    in base 10 gives the largest uint64 and a range error. *)
Lemma ParseUint_loop_decimal_overflow (s0 : string) (base0 : bool) (s : string) (n : Z) :
  all_bytes is_digit s = true ->
  0 <= n <= strconv.maxUint64 -> strconv.maxUint64 < decimal_acc n s ->
  strconv.ParseUint_loop s0 base0 10 (strconv.maxUint64 / 10 + 1)
                         (2 ^ 64 - 1) n false s
  = (2 ^ 64 - 1, Some (strconv.rangeError "ParseUint" s0)).
Proof.
  revert n. induction s as [|c s IH]; intros n H Hn Hmax;
    [cbn [decimal_acc] in Hmax; lia|].
  cbn [all_bytes] in H. apply andb_prop in H as [Hc Hs].
  pose proof (is_digit_bounds _ Hc) as Hd.
  cbn [decimal_acc] in Hmax.
  cbn [strconv.ParseUint_loop]. rewrite Hc.
  destruct (Ascii.eqb_spec c "_") as [->|_]; [discriminate Hc|].
  cbn [andb].
  change (strconv.maxUint64 / 10 + 1) with 1844674407370955162.
  change strconv.maxUint64 with 18446744073709551615 in Hmax, Hn.
  change (2 ^ 64) with 18446744073709551616.
  destruct (Z.geb_spec (byte_val c - byte_val "0") 10) as [?|_]; [lia|].
  destruct (Z.geb_spec n 1844674407370955162) as [_|Hlt]; [reflexivity|].
  rewrite (Z.mod_small (n * 10)) by lia.
  destruct (Z_lt_le_dec (n * 10 + (byte_val c - byte_val "0")) 18446744073709551616)
    as [Hsmall|Hbig].
  - rewrite (Z.mod_small (n * 10 + _)) by lia.
    destruct (Z.ltb_spec (n * 10 + (byte_val c - byte_val "0")) (n * 10)) as [?|_];
      [lia|].
    destruct (Z.gtb_spec (n * 10 + (byte_val c - byte_val "0"))
                         (18446744073709551616 - 1)) as [?|_]; [lia|].
    cbn [orb].
    change 1844674407370955162 with (strconv.maxUint64 / 10 + 1).
    change 18446744073709551616 with (2 ^ 64).
    apply IH; [exact Hs| |exact Hmax].
    change strconv.maxUint64 with 18446744073709551615. lia.
  - assert (Hmod : (n * 10 + (byte_val c - byte_val "0")) mod 18446744073709551616 =
                   n * 10 + (byte_val c - byte_val "0") - 18446744073709551616).
    { symmetry. apply (Z.mod_unique_pos _ _ 1). lia. lia. }
    rewrite Hmod.
    destruct (Z.ltb_spec (n * 10 + (byte_val c - byte_val "0") - 18446744073709551616)
                         (n * 10)) as [_|?]; [reflexivity|lia].
Qed.

(** In base 0, the way [Parse] calls it, [ParseInt] gives a decimal numeral
    above the largest int64 a range error. *)
Lemma ParseInt_base0_range (s : string) :
  decimal_numeral s ->
  int64.max_int < decimal_value s ->
  strconv.ParseInt s 0 64 = (int64.max_int, Some (NumError "ParseInt" s ErrRange)).
Proof.
  intros [H Hlead] Hmax. destruct s as [|c rest]; [now destruct Hlead|].
  destruct (Ascii.eqb_spec c "0") as [->|Hc0].
  - rewrite (Hlead eq_refl) in Hmax. vm_compute in Hmax. discriminate Hmax.
  - pose proof H as H'. cbn [all_bytes] in H'. apply andb_prop in H' as [Hc _].
    change int64.max_int with 9223372036854775807 in *.
    unfold strconv.ParseInt.
    destruct (Ascii.eqb_spec c "+") as [->|_]; [discriminate Hc|].
    destruct (Ascii.eqb_spec c "-") as [->|_]; [discriminate Hc|].
    unfold strconv.ParseUint.
    change ((2 <=? 0) && (0 <=? 36)) with false.
    change (0 =? 0) with true.
    change ((64 <? 0) || (64 >? 64)) with false.
    change (if 64 =? 0 then 64 else 64) with 64. cbv beta iota zeta.
    destruct (Ascii.eqb_spec c "0") as [->|_]; [now destruct Hc0|].
    unfold decimal_value in Hmax.
    destruct (Z_le_gt_dec (decimal_acc 0 (String c rest)) strconv.maxUint64)
      as [Hle|Hgt].
    + rewrite ParseUint_loop_decimal; [|exact H|lia|exact Hle].
      cbv beta iota zeta. cbn [negb andb].
      change (2 ^ (64 - 1)) with 9223372036854775808.
      destruct (Z.geb_spec (decimal_acc 0 (String c rest)) 9223372036854775808)
        as [_|?]; [reflexivity|lia].
    + rewrite ParseUint_loop_decimal_overflow;
        [|exact H|change strconv.maxUint64 with 18446744073709551615; lia|lia].
      reflexivity.
Qed.

(** X15: an input of one total-size line of fewer than 65536 bytes whose
    size, commas taken out, is a decimal numeral with no zero in front and
    above 2^63 - 1 makes [Parse] return the range error of [ParseInt] on
    the digits, and no record. *)
Theorem Parse_size_out_of_range (n4 n5 : string) :
  class_string digits_commas n4 -> class_string digits_commas_dots n5 ->
  decimal_numeral (strings.ReplaceAll n4 "," "") ->
  int64.max_int < decimal_value (strings.ReplaceAll n4 "," "") ->
  bufio.fits (size_shape n4 n5) = true ->
  Parse (text (size_shape n4 n5)) =
    Returned (None, Some (NumError "ParseInt" (strings.ReplaceAll n4 "," "") ErrRange)).
Proof.
  intros H4 H5 Hd Hmax Hfits.
  destruct (size_shape_plain _ _ H4 H5) as [Hplain Hne].
  rewrite (Parse_one_line _ Hplain Hne Hfits).
  rewrite (Parse_line_size_shape _ _ _ H4 H5). unfold store_size.
  now rewrite (ParseInt_base0_range _ Hd Hmax).
Qed.

Lemma Parse_size_out_of_range_witness :
  class_string digits_commas "9,223,372,036,854,775,808" /\
  class_string digits_commas_dots "1.00" /\
  decimal_numeral (strings.ReplaceAll "9,223,372,036,854,775,808" "," "") /\
  int64.max_int < decimal_value (strings.ReplaceAll "9,223,372,036,854,775,808" "," "") /\
  bufio.fits (size_shape "9,223,372,036,854,775,808" "1.00") = true /\
  Parse (text "total size is 9,223,372,036,854,775,808  speedup is 1.00") =
    Returned (None, Some (NumError "ParseInt" "9223372036854775808" ErrRange)).
Proof.
  assert (H4 : class_string digits_commas "9,223,372,036,854,775,808")
    by (split; [discriminate|reflexivity]).
  assert (H5 : class_string digits_commas_dots "1.00")
    by (split; [discriminate|reflexivity]).
  assert (Hd : decimal_numeral (strings.ReplaceAll "9,223,372,036,854,775,808" "," ""))
    by (split; [reflexivity|discriminate]).
  assert (Hmax : int64.max_int <
                 decimal_value (strings.ReplaceAll "9,223,372,036,854,775,808" "," ""))
    by (vm_compute; reflexivity).
  assert (Hfits : bufio.fits (size_shape "9,223,372,036,854,775,808" "1.00") = true)
    by reflexivity.
  repeat (split; [assumption|]).
  exact (Parse_size_out_of_range _ _ H4 H5 Hd Hmax Hfits).
Defined.

(** The carriage return of a line counts in its length: 65535 bytes [x]
    fit the scanner's buffer when a newline ends them, and no longer when
    a carriage return and a newline do. *)
Lemma Parse_CR_counts_in_line_length :
  let l := replicate (N.to_nat 65535) "x" in
  Parse (text (l ++ nl)) = Returned (Some Stats_zero, None) /\
  lines (addCR l ++ nl) = [l] /\
  Parse (text (addCR l ++ nl)) = Returned (None, Some ErrTooLong).
Proof.
  cbv zeta. set (l := replicate (N.to_nat 65535) "x").
  assert (Hnn : all_bytes not_newline l = true)
    by (apply all_bytes_replicate; reflexivity).
  assert (Hnc : bufio.dropCR l = l)
    by (apply dropCR_no_CR, all_bytes_replicate; reflexivity).
  assert (Hlen : Z.of_nat (String.length l) = 65535).
  { unfold l. now rewrite length_replicate, N_nat_Z. }
  assert (Hun : unrecognized l).
  { unfold l.
    assert (H : exists n, N.to_nat 65535 = S n).
    { exists (N.to_nat 65534). rewrite <- N2Nat.inj_succ. reflexivity. }
    destruct H as [n ->]. split; reflexivity. }
  assert (Hcr : all_bytes not_newline (addCR l) = true).
  { unfold addCR. now rewrite all_bytes_app, Hnn. }
  assert (Hs1 : bufio.segments (l ++ nl) = [l; ""]).
  { rewrite <- (append_nil_r nl). now rewrite (segments_line _ _ Hnn). }
  assert (Hs2 : bufio.segments (addCR l ++ nl) = [addCR l; ""]).
  { rewrite <- (append_nil_r nl). now rewrite (segments_line _ _ Hcr). }
  split; [|split].
  - assert (Hin : input_lines (text (l ++ nl)) [l]).
    { split; [reflexivity|]. unfold text, lines. cbn [bufio.r_data].
      rewrite Hs1. cbn [lines_of_segments]. rewrite Hnc.
      split; [|reflexivity].
      constructor; [unfold bufio.fits; now rewrite Hlen|].
      constructor; [reflexivity|constructor]. }
    rewrite Parse_unrecognized_only; rewrite (NewScanner_input_lines _ _ Hin);
      [reflexivity|].
    now repeat constructor.
  - unfold lines. rewrite Hs2. cbn [lines_of_segments].
    now rewrite dropCR_addCR.
  - apply (Parse_too_long (text (addCR l ++ nl)) _ _ Hs2).
    unfold bufio.fits, addCR. rewrite length_append, Nat2Z.inj_add, Hlen.
    reflexivity.
Qed.

(** ** Inputs that end badly *)

Lemma segments_app_no_newline (a b : string) :
  all_bytes not_newline a = true ->
  exists f rest,
    bufio.segments b = f :: rest /\ bufio.segments (a ++ b) = (a ++ f) :: rest.
Proof.
  intros Ha. induction a as [|c a IH].
  - destruct (bufio.segments b) as [|f rest] eqn:E;
      [now destruct (segments_not_nil b)|]. now exists f, rest.
  - cbn [all_bytes] in Ha. apply andb_prop in Ha as [Hc Ha].
    destruct (IH Ha) as (f & rest & Hb & Hab). exists f, rest. split; [exact Hb|].
    cbn [append bufio.segments]. unfold not_newline in Hc.
    destruct (Ascii.eqb c "010"); [discriminate Hc|]. now rewrite Hab.
Qed.

Lemma fits_append_false (a b : string) :
  bufio.fits a = false -> bufio.fits (a ++ b) = false.
Proof.
  intros H. destruct (bufio.fits (a ++ b)) eqn:E; [|reflexivity].
  now rewrite (fits_prefix _ _ E) in H.
Qed.

(** X16: a line too long for the scanner's buffer, 65536 bytes or more
    before its newline, makes [Parse] return [bufio.ErrTooLong] and no
    record, also after a text that parses: the record made so far is dropped
    and what follows the line is not read. *)
Theorem Parse_line_too_long (data long rest : string) (p : Stats) :
  Parse (text data) = Returned (Some p, None) ->
  all_bytes not_newline long = true ->
  bufio.fits long = false ->
  Parse (text (data ++ nl ++ long ++ rest)) = Returned (None, Some ErrTooLong).
Proof.
  intros H Hlong Hfits. destruct (Parse_record_scan _ _ H) as [He Hloop].
  rewrite Parse_eq_tokens. unfold text. cbn [bufio.r_data bufio.r_err].
  rewrite segments_app_nl.
  destruct (segments_app_no_newline long rest Hlong) as (f & segs & _ & ->).
  destruct (scan_app (bufio.segments data) ((long ++ f) :: segs)
              (segments_not_nil data) ltac:(discriminate))
    as [[He' _]|(_ & pad & Hpad & ->)].
  - rewrite He in He'. discriminate He'.
  - rewrite (scan_too_long EOF _ segs (fits_append_false _ f Hfits)).
    cbn [fst snd]. rewrite app_nil_r. unfold Parse_tokens.
    now rewrite (Parse_loop_pad _ _ _ Hpad), Hloop.
Qed.

Lemma Parse_line_too_long_witness :
  let data := example_transfer_line ++ nl ++ example_size_line in
  Parse (text data) = Returned (Some example_stats, None) /\
  all_bytes not_newline long_line = true /\
  bufio.fits long_line = false /\
  Parse (text (data ++ nl ++ long_line ++ (nl ++ example_size_line))) =
    Returned (None, Some ErrTooLong).
Proof.
  cbv zeta.
  assert (H : Parse (text (example_transfer_line ++ nl ++ example_size_line)) =
              Returned (Some example_stats, None)) by (vm_compute; reflexivity).
  split; [exact H|]. split; [exact long_line_not_newline|].
  split; [exact long_line_fits|].
  exact (Parse_line_too_long _ _ _ _ H long_line_not_newline long_line_fits).
Defined.

Lemma scan_reader_error (e : error) (segs : list string) :
  bufio.scan e segs =
  (fst (bufio.scan EOF segs),
   match snd (bufio.scan EOF segs) with
   | EOF => e
   | err => err
   end).
Proof.
  induction segs as [|f segs IH]; [reflexivity|].
  destruct segs as [|g segs].
  - cbn [bufio.scan]. destruct f; [reflexivity|]. now destruct (bufio.fits _).
  - change (bufio.scan e (f :: g :: segs)) with
      (if bufio.fits f
       then let '(tokens, err) := bufio.scan e (g :: segs) in
            (bufio.dropCR f :: tokens, err)
       else ([], ErrTooLong)).
    change (bufio.scan EOF (f :: g :: segs)) with
      (if bufio.fits f
       then let '(tokens, err) := bufio.scan EOF (g :: segs) in
            (bufio.dropCR f :: tokens, err)
       else ([], ErrTooLong)).
    destruct (bufio.fits f); [|reflexivity]. rewrite IH.
    now destruct (bufio.scan EOF (g :: segs)).
Qed.

(** X17: a reader that fails with an error after its last byte.  When
    the bytes alone would give a record, [Parse] returns the reader's error
    and drops the record; when they would not, [Parse] gives what they give
    alone: the error of a line, or the panic, comes before the reader's
    error. *)
Theorem Parse_reader_error (data : string) (e : error) :
  e <> EOF ->
  (forall p, Parse (text data) = Returned (Some p, None) ->
             Parse {| bufio.r_data := data; bufio.r_err := e |} =
             Returned (None, Some e)) /\
  ((forall p, Parse (text data) <> Returned (Some p, None)) ->
   Parse {| bufio.r_data := data; bufio.r_err := e |} = Parse (text data)).
Proof.
  intros He. split.
  - intros p H. destruct (Parse_record_scan _ _ H) as [Herr Hloop].
    rewrite Parse_eq_tokens. cbn [bufio.r_data bufio.r_err].
    rewrite scan_reader_error, Herr. cbn [fst snd]. unfold Parse_tokens.
    rewrite Hloop. cbn [bind]. destruct e; [now destruct He| | |]; reflexivity.
  - intros Hfail. rewrite !Parse_eq_tokens. unfold text in *.
    cbn [bufio.r_data bufio.r_err].
    rewrite Parse_eq_tokens in Hfail. cbn [bufio.r_data bufio.r_err] in Hfail.
    rewrite scan_reader_error. cbn [fst snd].
    destruct (scan_err_cases EOF (bufio.segments data)) as [Herr|Herr];
      rewrite Herr in *; [|reflexivity].
    unfold Parse_tokens in *.
    destruct (Parse_loop Stats_zero _) as [[p|res]|pn]; cbn [bind] in *;
      try reflexivity.
    now destruct (Hfail p).
Qed.

Lemma Parse_reader_error_witness :
  let e := ErrorString "read |0: file already closed" in
  let data := example_transfer_line ++ nl ++ example_size_line ++ nl in
  e <> EOF /\
  Parse (text data) = Returned (Some example_stats, None) /\
  Parse {| bufio.r_data := data; bufio.r_err := e |} = Returned (None, Some e).
Proof.
  cbv zeta.
  assert (He : ErrorString "read |0: file already closed" <> EOF) by discriminate.
  assert (H : Parse (text (example_transfer_line ++ nl ++ example_size_line ++ nl)) =
              Returned (Some example_stats, None)) by (vm_compute; reflexivity).
  split; [exact He|]. split; [exact H|].
  exact (proj1 (Parse_reader_error _ _ He) _ H).
Defined.

(** ** Speedup below one *)

(** X18: when [TotalSize] is smaller than the bytes sent and received
    together, the fields not negative and the sum within int64, [Speedup]
    returns zero: a speed-up below one is not reported as a fraction. *)
Theorem Speedup_below_one (p : Stats) :
  0 <= TotalSize p -> 0 <= TotalWritten p -> 0 <= TotalRead p ->
  TotalSize p < TotalWritten p + TotalRead p <= int64.max_int ->
  Speedup p = Returned (S754_zero false).
Proof.
  intros Hs Hw Hr Hsum. unfold Speedup, int64.div, int64.add.
  rewrite (wrap_in_range (TotalWritten p + TotalRead p)).
  - destruct (Z.eqb_spec (TotalWritten p + TotalRead p) 0) as [E|_]; [lia|].
    rewrite Z.quot_small by lia. reflexivity.
  - unfold int64.in_range. change int64.min_int with (-9223372036854775808). lia.
Qed.

Lemma Speedup_below_one_witness :
  let p := {| Found := true; TotalWritten := 1590; TotalRead := 18;
              BytesPerSec := float64.of_int 3216; TotalSize := 1607 |} in
  0 <= TotalSize p /\ 0 <= TotalWritten p /\ 0 <= TotalRead p /\
  TotalSize p < TotalWritten p + TotalRead p <= int64.max_int /\
  Speedup p = Returned (S754_zero false).
Proof.
  cbv zeta.
  match goal with
  | |- ?A /\ ?B /\ ?C /\ ?D /\ _ =>
      assert (Ha : A) by (vm_compute; discriminate);
      assert (Hb : B) by (vm_compute; discriminate);
      assert (Hc : C) by (vm_compute; discriminate);
      assert (Hd : D) by (split; vm_compute; [reflexivity|discriminate])
  end.
  repeat (split; [assumption|]).
  exact (Speedup_below_one _ Ha Hb Hc Hd).
Defined.
